(** * The census pipeline of [dags/mlflow-dag.py]

    A shallow embedding of the four Airflow tasks of the DAG
    [using_gcs_for_xcom_ds] and of the pandas / numpy / scikit-learn / mlflow
    calls they make, followed by the properties the specification states
    about them.

    Conventions.
    - A pandas [DataFrame] is a header (column labels with their dtypes) and a
      list of rows; a row carries its index label and its cells, each cell
      tagged with the label of its column.
    - A scalar is a missing value ([None] / [NaN]), a Python [int] or a Python
      [str].  The columns of [census_adult_income] are INT64 or STRING.  A
      [str] is the string of its code points, which are taken below 256.
    - Python exceptions are values of [exn]; a call that may raise returns a
      [result], and a call that also changes an object runs in [ST].
    - A float64 is one of Rocq's primitive floats, which are IEEE 754
      binary64 as numpy's are.
    - The library calls follow pandas 1.3, numpy 1.21 and scikit-learn 1.0,
      the releases that were current when the DAG was written
      ([lgb.train(early_stopping_rounds=...)] and
      [ConfusionMatrixDisplay.from_predictions] fix that window). *)

From Stdlib Require Import ZArith QArith Qround Lia List Ascii String Floats.
From stdpp Require Import base option list strings gmap sorting pretty.

(** ** Scalars, dtypes, exceptions *)

Inductive value : Type :=
  | NA
  | VInt (z : Z)
  | VStr (s : string).

Global Instance value_eq_dec : EqDecision value.
Proof. solve_decision. Defined.

Inductive dtype : Type := int64 | float64 | object | uint8 | category.

Global Instance dtype_eq_dec : EqDecision dtype.
Proof. solve_decision. Defined.

Inductive exn : Type :=
  | KeyError (key : string)
  | AttributeError (msg : string)
  | TypeError (msg : string)
  | ValueError (msg : string)
  | IndexError (msg : string)
  | MlflowException (error_code : string)
  | ConnectionError (msg : string)
  | KeyboardInterrupt.

Inductive result (A : Type) : Type :=
  | Ok (a : A)
  | Raise (e : exn).
Arguments Ok {A} a.
Arguments Raise {A} e.

Global Instance result_ret : MRet result := λ A a, Ok a.
Global Instance result_bind : MBind result := λ A B f m,
  match m with
  | Ok a => f a
  | Raise e => Raise e
  end.

(** [mapM] for [result]: the first exception wins, as in a Python loop. *)
Fixpoint traverse {A B} (f : A → result B) (l : list A) : result (list B) :=
  match l with
  | [] => Ok []
  | x :: l' => y ← f x; ys ← traverse f l'; Ok (y :: ys)
  end.

(** ** Data frames *)

Record row : Type := Row { label : Z; cells : list (string * value) }.

Record DataFrame : Type :=
  Frame { columns : list (string * dtype); rows : list row }.

Global Instance row_eq_dec : EqDecision row.
Proof. solve_decision. Defined.

Global Instance DataFrame_eq_dec : EqDecision DataFrame.
Proof. solve_decision. Defined.

(** Rows and headers are read by label: the first entry with the label
    counts.  BigQuery returns distinct column labels. *)
Fixpoint assoc {V} (c : string) (l : list (string * V)) : option V :=
  match l with
  | [] => None
  | (k, v) :: l' => if decide (k = c) then Some v else assoc c l'
  end.

(** The cell of column [c] in a row. *)
Abbreviation cell := (assoc (V := value)).

(** [df.dtypes[c]] *)
Abbreviation dtype_of := (assoc (V := dtype)).

(** A pandas [Series]: the dtype and the values, top to bottom. *)
Record Series : Type := Ser { sdtype : dtype; svalues : list value }.

(** The values of column [c], top to bottom. *)
Definition column (df : DataFrame) (c : string) : list value :=
  (λ r, default NA (cell c (cells r))) <$> rows df.

(** [df[c]] *)
Definition getitem (df : DataFrame) (c : string) : result Series :=
  match dtype_of c (columns df) with
  | Some t => Ok (Ser t (column df c))
  | None => Raise (KeyError c)
  end.

(** Writing under a label: overwrite the entries with the label, or append
    a new entry when there is none. *)
Definition assoc_set {V} (c : string) (v : V) (l : list (string * V))
  : list (string * V) :=
  if decide (c ∈ l.*1)
  then (λ p, if decide (p.1 = c) then (c, v) else p) <$> l
  else l ++ [(c, v)].

Abbreviation set_cell := (assoc_set (V := value)).
Abbreviation set_dtype := (assoc_set (V := dtype)).

(** [df[c] = s] for a Series [s] that has one value per row. *)
Definition setitem (df : DataFrame) (c : string) (s : Series)
  : result DataFrame :=
  if decide (length (svalues s) = length (rows df))
  then Ok (Frame (set_dtype c (sdtype s) (columns df))
                 (zip_with (λ r v, Row (label r) (set_cell c v (cells r)))
                           (rows df) (svalues s)))
  else Raise (ValueError "Length of values does not match length of index").

(** The dtype pandas gives to the values a function returned: integers stay
    [int64], integers with holes become [float64], anything else is
    [object]; an empty result keeps the dtype it had. *)
Definition infer_dtype (old : dtype) (l : list value) : dtype :=
  match l with
  | [] => old
  | _ =>
      if forallb (λ v, match v with VInt _ => true | _ => false end) l
      then int64
      else if forallb (λ v, match v with VStr _ => false | _ => true end) l
      then float64
      else object
  end.

(** [s.apply(f)] *)
Definition apply (f : value → result value) (s : Series) : result Series :=
  l ← traverse f (svalues s); Ok (Ser (infer_dtype (sdtype s) l) l).

(** The scalars a column of a given dtype can hold: anything in an [object]
    column, integers in the integer columns, integers and [NaN] in the
    others. *)
Definition conforms (t : dtype) (v : value) : Prop :=
  match t, v with
  | object, _ => True
  | (int64 | uint8), VInt _ => True
  | (float64 | category), (VInt _ | NA) => True
  | _, _ => False
  end.

Global Instance conforms_dec t v : Decision (conforms t v).
Proof. destruct t, v; simpl; apply _. Defined.

(** A well-formed frame: every row has one cell per column of the header, in
    the order of the header, holding a scalar of the dtype of the column. *)
Definition wf (d : DataFrame) : Prop :=
  Forall (λ r, Forall2 (λ p q, p.1 = q.1 ∧ conforms q.2 p.2)
                 (cells r) (columns d)) (rows d).

Global Instance wf_dec d : Decision (wf d).
Proof. unfold wf. apply _. Defined.

(** ** [pd.cut] *)

(** [bins.searchsorted(v, side='left')] on an increasing array: the number of
    edges strictly below [v]. *)
Fixpoint searchsorted_left (a : list Z) (v : Z) : nat :=
  match a with
  | [] => 0
  | x :: a' => if (x <? v)%Z then S (searchsorted_left a' v) else 0
  end.

(** One element of [pd.cut(x, bins, labels)] with the defaults [right=True],
    [include_lowest=False]: the position [ids] of the value among the edges,
    masked when the value is missing, at or below the first edge ([ids = 0])
    or above the last one ([ids = len(bins)]), then [labels[ids - 1]]. *)
Definition cut_value (bins labels : list Z) (v : value) : result value :=
  match v with
  | NA => Ok NA
  | VStr _ => Raise (TypeError "'<' not supported between 'int' and 'str'")
  | VInt z =>
      let ids := searchsorted_left bins z in
      if decide (ids = length bins ∨ ids = 0) then Ok NA
      else Ok (from_option VInt NA (labels !! (ids - 1)))
  end.

Definition cut (x : Series) (bins labels : list Z) : result Series :=
  if decide (length labels = length bins - 1)
  then l ← traverse (cut_value bins labels) (svalues x); Ok (Ser category l)
  else Raise (ValueError "Bin labels must be one fewer than the number of bin edges").

(** ** Python [str] methods *)

(** [str.isspace] on one character, for the code points below 256: the
    characters [str.strip] removes when called without argument. *)
Definition is_space (a : ascii) : bool :=
  let n := nat_of_ascii a in
  ((9 <=? n) && (n <=? 13)) || ((28 <=? n) && (n <=? 32))
  || (n =? 133) || (n =? 160).

Fixpoint lstrip (s : string) : string :=
  match s with
  | EmptyString => EmptyString
  | String a s' => if is_space a then lstrip s' else s
  end.

Fixpoint rstrip (s : string) : string :=
  match s with
  | EmptyString => EmptyString
  | String a s' =>
      match rstrip s' with
      | EmptyString => if is_space a then EmptyString else String a EmptyString
      | t => String a t
      end
  end.

(** A string of whitespace only. *)
Fixpoint blank (s : string) : bool :=
  match s with
  | EmptyString => true
  | String a s' => is_space a && blank s'
  end.

(** ** The pandas calls of the Cleaner *)

Definition notna (v : value) : bool :=
  match v with NA => false | _ => true end.

(** [df.dropna()]: keep the rows without any missing cell. *)
Definition dropna (df : DataFrame) : DataFrame :=
  Frame (columns df)
        (filter (λ r, forallb (λ p, notna p.2) (cells r) = true) (rows df)).

(** [df.drop_duplicates()], [keep='first']: a row goes when an earlier row
    has the same values in every column; index labels do not count. *)
Fixpoint keep_first (seen : list (list (string * value))) (l : list row)
  : list row :=
  match l with
  | [] => []
  | r :: l' =>
      if decide (cells r ∈ seen) then keep_first seen l'
      else r :: keep_first (cells r :: seen) l'
  end.

Definition drop_duplicates (df : DataFrame) : DataFrame :=
  Frame (columns df) (keep_first [] (rows df)).

(** [df.drop(columns=cs)]: [KeyError] when a label is not a column. *)
Definition drop_columns (df : DataFrame) (cs : list string)
  : result DataFrame :=
  match filter (λ c, c ∉ (columns df).*1) cs with
  | [] =>
      Ok (Frame (filter (λ p, p.1 ∉ cs) (columns df))
                ((λ r, Row (label r) (filter (λ p, p.1 ∉ cs) (cells r)))
                   <$> rows df))
  | c :: _ => Raise (KeyError c)
  end.

(** [lambda x: x.rstrip().lstrip()] *)
Definition strip_lambda (x : value) : result value :=
  match x with
  | VStr s => Ok (VStr (lstrip (rstrip s)))
  | VInt _ => Raise (AttributeError "'int' object has no attribute 'rstrip'")
  | NA => Raise (AttributeError "'NoneType' object has no attribute 'rstrip'")
  end.

(** [lambda x: 'Unknown' if x == '?' else x] *)
Definition unknown_lambda (x : value) : result value :=
  Ok (if decide (x = VStr "?") then VStr "Unknown" else x).

(** ** Objects and in-place methods

    The tasks receive a reference to a DataFrame object.  [inplace=True] and
    [df[c] = ...] change the object the reference points to, so the
    in-place calls run in a state-and-exception monad over the store of
    DataFrame objects. *)

(** State [S] and exceptions: a call returns a value or raises, and leaves
    a state behind in both cases. *)
Definition ST (S A : Type) : Type := S → result A * S.

Global Instance ST_ret {S} : MRet (ST S) := λ A a σ, (Ok a, σ).
Global Instance ST_bind {S} : MBind (ST S) := λ A B f m σ,
  match m σ with
  | (Ok a, σ') => f a σ'
  | (Raise e, σ') => (Raise e, σ')
  end.

Definition loc := positive.
Abbreviation store := (gmap loc DataFrame).
Abbreviation Py := (ST store).

Definition lift {S A} (x : result A) : ST S A := λ σ, (x, σ).
Definition get {S} : ST S S := λ σ, (Ok σ, σ).
Definition put {S} (σ : S) : ST S unit := λ _, (Ok tt, σ).

Definition load (r : loc) : Py DataFrame := λ σ,
  match σ !! r with
  | Some d => (Ok d, σ)
  | None => (Raise (AttributeError "object is not a DataFrame"), σ)
  end.

Definition save (r : loc) (d : DataFrame) : Py unit := λ σ,
  (Ok tt, <[r := d]> σ).

(** [for x in l: body] *)
Fixpoint for_each {S A} (l : list A) (body : A → ST S unit) : ST S unit :=
  match l with
  | [] => mret tt
  | x :: l' => body x;; for_each l' body
  end.

(** [df.dropna(inplace=True)] *)
Definition dropna_inplace (df : loc) : Py unit :=
  d ← load df; save df (dropna d).

(** [df.drop_duplicates(inplace=True)] *)
Definition drop_duplicates_inplace (df : loc) : Py unit :=
  d ← load df; save df (drop_duplicates d).

(** [df.columns] *)
Definition columns_at (df : loc) : Py (list string) :=
  d ← load df; mret (columns d).*1.

(** [df.dtypes[c]] *)
Definition dtypes_at (df : loc) (c : string) : Py dtype :=
  d ← load df;
  match dtype_of c (columns d) with
  | Some t => mret t
  | None => lift (Raise (KeyError c))
  end.

(** [df[c]] *)
Definition getitem_at (df : loc) (c : string) : Py Series :=
  d ← load df; lift (getitem d c).

(** [df[c] = s] *)
Definition setitem_at (df : loc) (c : string) (s : Series) : Py unit :=
  d ← load df; d' ← lift (setitem d c s); save df d'.

(** [df.drop(columns=cs, inplace=True)] *)
Definition drop_inplace (df : loc) (cs : list string) : Py unit :=
  d ← load df; d' ← lift (drop_columns d cs); save df d'.

(** ** Task [preprocessing] (the Cleaner) *)

Definition preprocessing (df : loc) : Py loc :=
  dropna_inplace df;;
  drop_duplicates_inplace df;;
  cols ← columns_at df;
  for_each cols (λ col,
    t ← dtypes_at df col;
    if decide (t = object)
    then s ← getitem_at df col;
         s' ← lift (apply strip_lambda s);
         setitem_at df col s'
    else mret tt);;
  (s ← getitem_at df "workclass";
   s' ← lift (apply unknown_lambda s);
   setitem_at df "workclass" s');;
  (s ← getitem_at df "occupation";
   s' ← lift (apply unknown_lambda s);
   setitem_at df "occupation" s');;
  (s ← getitem_at df "native_country";
   s' ← lift (apply unknown_lambda s);
   setitem_at df "native_country" s');;
  drop_inplace df ["education_num"; "relationship"; "functional_weight"];;
  mret df.

(** ** [pd.get_dummies] *)

(** The order of the categories of a column: numbers before strings,
    numbers by value, strings by code point. *)
Definition value_le (a b : value) : Prop :=
  match a, b with
  | NA, _ => True
  | _, NA => False
  | VInt x, VInt y => (x ≤ y)%Z
  | VInt _, VStr _ => True
  | VStr _, VInt _ => False
  | VStr s, VStr t => String.le s t
  end.

Global Instance value_le_dec : RelDecision value_le.
Proof. intros [|x|s] [|y|t]; simpl; apply _. Defined.

(** The categories: the distinct values that are not missing, sorted. *)
Definition levels_of (l : list value) : list value :=
  merge_sort value_le (remove_dups (filter (λ v, notna v = true) l)).

(** [str(level)] *)
Definition str (v : value) : string :=
  match v with
  | NA => "nan"
  | VInt z => pretty z
  | VStr s => s
  end.

(** The label of an indicator column: the prefix, [prefix_sep='_'], the
    category. *)
Definition dummy_name (prefix : string) (l : value) : string :=
  prefix +:+ "_" +:+ str l.

(** The indicator cells of one row whose source value is [v]: 1 under the
    category equal to [v], 0 under the others.  A missing [v] is no category
    ([dummy_na=False]), so all its indicators are 0. *)
Definition indicators (prefix : string) (levels : list value) (v : value)
  : list (string * value) :=
  (λ l, (dummy_name prefix l, VInt (if decide (v = l) then 1 else 0)))
    <$> levels.

(** One row after the expansion of column [c]: the other cells, then the
    indicator cells. *)
Definition dummies (prefix c : string) (levels : list value)
    (l : list (string * value)) : list (string * value) :=
  filter (λ p, p.1 ≠ c) l ++ indicators prefix levels (default NA (cell c l)).

(** [pd.get_dummies(df, prefix=prefix, columns=[c])]: a new frame, the
    columns of [df] other than [c] followed by one [uint8] indicator column
    per category of [c]. *)
Definition get_dummies (df : DataFrame) (prefix c : string)
  : result DataFrame :=
  s ← getitem df c;
  let levels := levels_of (svalues s) in
  Ok (Frame
        (filter (λ p, p.1 ≠ c) (columns df)
           ++ ((λ l, (dummy_name prefix l, uint8)) <$> levels))
        ((λ r, Row (label r) (dummies prefix c levels (cells r)))
           <$> rows df)).

(** ** Task [feature_engineering] (the Feature Builder)

    The first statement rebinds [df] to the new frame [pd.get_dummies]
    returns, so the later writes ([df[c] = ...], [inplace=True]) land in an
    object only this task holds: the task is a function from frame to
    frame. *)

(** [lambda x: 1 if x == 'Never-married' else 0] *)
Definition never_married_lambda (x : value) : result value :=
  Ok (VInt (if decide (x = VStr "Never-married") then 1 else 0)).

Definition age_edges : list Z := [16; 29; 39; 49; 59; 100]%Z.
Definition age_labels : list Z := [1; 2; 3; 4; 5]%Z.

Definition feature_engineering (df : DataFrame) : result DataFrame :=
  df ← get_dummies df "workclass" "workclass";
  df ← get_dummies df "education" "education";
  df ← get_dummies df "occupation" "occupation";
  df ← get_dummies df "race" "race";
  df ← get_dummies df "sex" "sex";
  df ← get_dummies df "income_bracket" "income_bracket";
  df ← get_dummies df "native_country" "native_country";
  age ← getitem df "age";
  age_bins ← cut age age_edges age_labels;
  df ← setitem df "age_bins" age_bins;
  marital_status ← getitem df "marital_status";
  never_married ← apply never_married_lambda marital_status;
  df ← setitem df "never_married" never_married;
  drop_columns df ["income_bracket_<=50K"; "marital_status"; "age"].

(** ** Task [cross_validation] (the Trainer/Validator)

    The task trains a LightGBM model and reports to an MLflow server.  The
    parts its statements are about are embedded one by one: the split of the
    data (lines 128-132), the set-up of the experiment (lines 138-145) and
    the thresholding of the predictions (line 172). *)

(** *** The train/validation split *)

(** [a.iloc[indices]] *)
Definition iloc {A} (a : list A) (indices : list nat) : result (list A) :=
  traverse (λ i, match a !! i with
                 | Some x => Ok x
                 | None => Raise (IndexError "positional indexers are out-of-bounds")
                 end) indices.

Section train_test_split.
(** numpy's [RandomState]: the state of a generator, the generator a seed
    gives, and [permutation(n)], which draws from a generator and advances
    it.  The ambient state of the monad is numpy's global generator. *)
Context {rng : Type}.
Variable RandomState : Z → rng.
Variable permutation : rng → nat → list nat * rng.

(** [rng = check_random_state(random_state); rng.permutation(n)]: an
    integer seed makes a new generator, [None] uses the global one. *)
Definition draw_permutation (random_state : option Z) (n : nat)
  : ST rng (list nat) := λ g,
  match random_state with
  | Some seed => (Ok (permutation (RandomState seed) n).1, g)
  | None => let '(p, g') := permutation g n in (Ok p, g')
  end.

(** [train_test_split(X, y, test_size=test_size, random_state=random_state)]:
    [n_test = ceil(test_size * n)], [n_train = n - n_test], the first
    [n_test] positions of the permutation are the test rows, the next
    [n_train] the training rows. *)
Definition train_test_split (X : DataFrame) (y : Series) (test_size : Q)
    (random_state : option Z)
  : ST rng (DataFrame * DataFrame * Series * Series) :=
  let n := length (rows X) in
  if decide (length (svalues y) ≠ n)
  then lift (Raise (ValueError "Found input variables with inconsistent numbers of samples"))
  else
    let n_test := Z.to_nat (Qceiling (test_size * inject_Z (Z.of_nat n))%Q) in
    let n_train := n - n_test in
    if decide (n_train = 0)
    then lift (Raise (ValueError "the resulting train set will be empty"))
    else
      p ← draw_permutation random_state n;
      let test := take n_test p in
      let train := take n_train (drop n_test p) in
      X_train ← lift (iloc (rows X) train);
      X_val ← lift (iloc (rows X) test);
      y_train ← lift (iloc (svalues y) train);
      y_val ← lift (iloc (svalues y) test);
      mret (Frame (columns X) X_train, Frame (columns X) X_val,
            Ser (sdtype y) y_train, Ser (sdtype y) y_val).

(** Lines 128-132 of [cross_validation]. *)
Definition split_data (df : DataFrame)
  : ST rng (DataFrame * DataFrame * Series * Series) :=
  y ← lift (getitem df "never_married");
  X ← lift (drop_columns df ["never_married"]);
  train_test_split X y 0.2%Q (Some 55%Z).
End train_test_split.

(** *** The experiment set-up *)

(** [try: body except: pass].  A bare [except] catches every exception,
    [KeyboardInterrupt] included. *)
Definition try_except_pass {S A} (body : ST S A) : ST S unit := λ σ,
  match body σ with
  | (Ok _, σ') => (Ok tt, σ')
  | (Raise _, σ') => (Ok tt, σ')
  end.

Section tracking.
(** The MLflow client: the state of the client and of the server behind
    it, and the three calls the task makes before it starts the run. *)
Context {client : Type}.
Variable set_tracking_uri : string → ST client unit.
Variable create_experiment : string → ST client string.
Variable set_experiment : string → ST client unit.

(** Lines 138-145 of [cross_validation]. *)
Definition setup_experiment : ST client unit :=
  set_tracking_uri "http://host.docker.internal:5000";;
  try_except_pass (create_experiment "census_prediction");;
  set_experiment "census_prediction".
End tracking.

(** *** The class predictions *)

(** [np.greater] on float64: IEEE 754 comparison, false on NaN. *)
Definition greater (x y : float) : bool := PrimFloat.ltb y x.

(** [np.where(cond, a, b)] for scalars [a] and [b]. *)
Definition np_where {A} (cond : list bool) (a b : A) : list A :=
  (λ c : bool, if c then a else b) <$> cond.

(** Line 172: [y_pred_class = np.where(y_pred > 0.5, 1, 0)]. *)
Definition y_pred_class (y_pred : list float) : list Z :=
  np_where ((λ p, greater p 0.5%float) <$> y_pred) 1%Z 0%Z.

(** The number a finite float stands for.  [Prim2SF] gives the sign, the
    mantissa [m] and the exponent [e] of a float; its value [m * 2^e] is
    written over the denominator [2^1074], the exponent of a binary64
    number being at least -1074.  Infinities and NaN stand for no number. *)
Definition float_value (p : float) : option Q :=
  match Prim2SF p with
  | S754_zero _ => Some 0%Q
  | S754_finite s m e =>
      Some (Qmake ((if s then -1 else 1) * (Z.pos m * 2 ^ (e + 1074)))
                  (2 ^ 1074)%positive)
  | _ => None
  end.

(** A float strictly above one half: a number above 1/2, or plus
    infinity. *)
Definition above_half (p : float) : Prop :=
  match float_value p with
  | Some q => (1 # 2 < q)%Q
  | None => Prim2SF p = S754_infinity false
  end.

(** * The tasks, read as functions

    What a task computes on the frame it is given, and what that does to one
    row.  These readings are proved equal to the tasks in the sections on
    the Cleaner and on the Feature Builder. *)

(** ** The Cleaner *)

(** One iteration of the loop over the columns (lines 66-68). *)
Definition strip_step (d : DataFrame) (col : string) : result DataFrame :=
  match dtype_of col (columns d) with
  | Some t =>
      if decide (t = object)
      then s ← getitem d col; s' ← apply strip_lambda s; setitem d col s'
      else Ok d
  | None => Raise (KeyError col)
  end.

Fixpoint strip_loop (cols : list string) (d : DataFrame) : result DataFrame :=
  match cols with
  | [] => Ok d
  | col :: cols' => d' ← strip_step d col; strip_loop cols' d'
  end.

(** [df[c] = df[c].apply(lambda x: 'Unknown' if x == '?' else x)] *)
Definition unknown_step (d : DataFrame) (c : string) : result DataFrame :=
  s ← getitem d c; s' ← apply unknown_lambda s; setitem d c s'.

Definition unused_columns : list string :=
  ["education_num"; "relationship"; "functional_weight"].

(** The frame after lines 61-62. *)
Definition deduplicated (d : DataFrame) : DataFrame :=
  drop_duplicates (dropna d).

(** The frame the Cleaner leaves in the object it was given. *)
Definition preprocessing_frame (d : DataFrame) : result DataFrame :=
  let d := deduplicated d in
  d ← strip_loop (columns d).*1 d;
  d ← unknown_step d "workclass";
  d ← unknown_step d "occupation";
  d ← unknown_step d "native_country";
  drop_columns d unused_columns.

(** [m] replaces the frame [d] at [r] by [F d] and returns [a], or raises
    what [F d] raises. *)
Definition updates {A} (r : loc) (m : Py A) (a : A)
    (F : DataFrame → result DataFrame) : Prop :=
  ∀ (σ : store) d, σ !! r = Some d →
    ∃ σ', m σ = (_ ← F d; Ok a, σ') ∧ ∀ d', F d = Ok d' → σ' = <[r := d']> σ.

(** The value [f] returns wherever it returns one. *)
Definition strip_value (x : value) : value :=
  match x with
  | VStr s => VStr (lstrip (rstrip s))
  | _ => x
  end.

Definition unknown_value (x : value) : value :=
  if decide (x = VStr "?") then VStr "Unknown" else x.

(** [df[dst] = df[src].apply(g)], in one row. *)
Definition map_cell (src dst : string) (g : value → value)
    (l : list (string * value)) : list (string * value) :=
  set_cell dst (g (default NA (cell src l))) l.

(** The loop over the columns, in one row of a frame with header [h]. *)
Definition strip_cells (h : list (string * dtype)) (cols : list string)
    (l : list (string * value)) : list (string * value) :=
  foldl (λ l c, if decide (dtype_of c h = Some object)
                then map_cell c c strip_value l else l) l cols.

(** The Cleaner after line 62, in one row. *)
Definition clean_cells (h : list (string * dtype))
    (l : list (string * value)) : list (string * value) :=
  filter (λ p, p.1 ∉ unused_columns)
    (map_cell "native_country" "native_country" unknown_value
       (map_cell "occupation" "occupation" unknown_value
          (map_cell "workclass" "workclass" unknown_value
             (strip_cells h h.*1 l)))).

Definition clean_row (h : list (string * dtype)) (r : row) : row :=
  Row (label r) (clean_cells h (cells r)).

(** The three columns whose ['?'] the Cleaner renames. *)
Definition renamed_columns : list string :=
  ["workclass"; "occupation"; "native_country"].

(** ** The Feature Builder *)

(** The bucket [pd.cut] gives to a value it accepts. *)
Definition cut_age (x : value) : value :=
  match cut_value age_edges age_labels x with
  | Ok y => y
  | Raise _ => NA
  end.

Definition never_married_value (x : value) : value :=
  VInt (if decide (x = VStr "Never-married") then 1 else 0).

Definition redundant_columns : list string :=
  ["income_bracket_<=50K"; "marital_status"; "age"].

(** The seven columns the Feature Builder expands, in the order it expands
    them. *)
Definition encoded_columns : list string :=
  ["workclass"; "education"; "occupation"; "race"; "sex"; "income_bracket";
   "native_country"].

(** The seven expansions in one row of the frame [d]: the categories of a
    column are those of the column of [d]. *)
Definition encode_cells (d : DataFrame) (cs : list string)
    (l : list (string * value)) : list (string * value) :=
  foldl (λ l c, dummies c c (levels_of (column d c)) l) l cs.

(** The whole task in one row of the frame [d]. *)
Definition feature_cells (d : DataFrame) (l : list (string * value))
  : list (string * value) :=
  filter (λ p, p.1 ∉ redundant_columns)
    (map_cell "marital_status" "never_married" never_married_value
       (map_cell "age" "age_bins" cut_age
          (encode_cells d encoded_columns l))).

(** The sum of the integer cells of a row segment. *)
Definition indicator_sum (l : list (string * value)) : Z :=
  foldr (λ p acc, match p.2 with VInt z => (z + acc)%Z | _ => acc end) 0%Z l.

(** The seven expansions, as a loop. *)
Fixpoint encode_loop (cs : list string) (d : DataFrame) : result DataFrame :=
  match cs with
  | [] => Ok d
  | c :: cs' => d' ← get_dummies d c c; encode_loop cs' d'
  end.

(** The labels the Feature Builder reads or writes by name. *)
Definition fixed_labels : list string :=
  encoded_columns ++ ["age"; "marital_status"; "age_bins"; "never_married"].

(** The indicator cells of column [c] that the task leaves in the row that
    came in as [ri]: the cells of the expansion, less the redundant
    columns. *)
Definition output_indicators (d : DataFrame) (c : string) (ri : row)
  : list (string * value) :=
  filter (λ p, p.1 ∉ redundant_columns)
    (indicators c (levels_of (column d c)) (default NA (cell c (cells ri)))).

(** The cells of a row whose label starts with [c_]. *)
Definition named_indicators (c : string) (l : list (string * value))
  : list (string * value) :=
  filter (λ p, String.prefix (c +:+ "_") p.1 = true) l.

(** ** The split *)

(** A computation that neither reads nor changes the ambient state. *)
Definition stateless {S A} (m : ST S A) : Prop :=
  ∃ res, ∀ σ, m σ = (res, σ).

(** * Data to run the tasks on *)

(** ** A sample of the census table

    Rows 1 and 2 differ in [education_num] only, row 3 has no age, and the
    values carry the leading blank the source table has. *)
Definition census_header : list (string * dtype) :=
  [("age", int64); ("workclass", object); ("functional_weight", int64);
   ("education", object); ("education_num", int64);
   ("marital_status", object); ("occupation", object);
   ("relationship", object); ("race", object); ("sex", object);
   ("native_country", object); ("income_bracket", object)].

Definition census_row (i age : Z) (workclass : string) (fnlwgt : Z)
    (education : string) (education_num : Z)
    (marital_status occupation relationship race sex native_country
       income_bracket : string) : row :=
  Row i [("age", VInt age); ("workclass", VStr workclass);
         ("functional_weight", VInt fnlwgt); ("education", VStr education);
         ("education_num", VInt education_num);
         ("marital_status", VStr marital_status);
         ("occupation", VStr occupation);
         ("relationship", VStr relationship); ("race", VStr race);
         ("sex", VStr sex); ("native_country", VStr native_country);
         ("income_bracket", VStr income_bracket)].

Definition census_sample : DataFrame :=
  Frame (set_dtype "age" float64 census_header)
    [census_row 0 16 " ?" 77516 " HS-grad" 9 " Never-married" " Sales"
       " Own-child" " White" " Male" " ? " " <=50K";
     census_row 1 30 " Private" 83311 " HS-grad" 9 " Divorced" " ?"
       " Unmarried" " Black" " Female" " Cuba" " >50K";
     census_row 2 30 " Private" 83311 " HS-grad" 10 " Divorced" " ?"
       " Unmarried" " Black" " Female" " Cuba" " >50K";
     Row 3 (set_cell "age" NA
              (cells (census_row 3 0 " Private" 215646 " Bachelors" 13
                        " Divorced" " Sales" " Unmarried" " Black" " Female"
                        " Cuba" " >50K")))].

Definition sample_store : store := {[ 1%positive := census_sample ]}.

(** The sample, cleaned or as it came when the Cleaner raises. *)
Definition census_clean : DataFrame :=
  match preprocessing_frame census_sample with
  | Ok d => d
  | Raise _ => census_sample
  end.

(** ** A generator to run the split with

    A stand-in for numpy's Mersenne Twister: the state is a counter, and
    [permutation n] rotates [0 .. n-1] by the counter and advances it. *)
Definition toy_RandomState (seed : Z) : Z := seed.

Definition toy_permutation (g : Z) (n : nat) : list nat * Z :=
  (rotate (Z.to_nat (g `mod` Z.of_nat (S n))) (seq 0 n), (g + 1)%Z).

(** Five rows with their labels, to split. *)
Definition five_rows : DataFrame :=
  Frame [("x", int64); ("never_married", int64)]
    ((λ i : Z, Row i [("x", VInt (10 * i)); ("never_married", VInt (i `mod` 2))])
       <$> [0; 1; 2; 3; 4]%Z).

(** ** A tracking server to run the set-up against

    Every request to the server first takes the next entry of [faults]: an
    exception to raise (the network, the server) or nothing. *)
Record tracking : Type := Tracking {
  uri : string;
  experiments : list string;
  active : option string;
  faults : list (option exn)
}.

Definition request : ST tracking unit :=
  σ ← get;
  match faults σ with
  | Some e :: fs =>
      put (Tracking (uri σ) (experiments σ) (active σ) fs);; lift (Raise e)
  | None :: fs => put (Tracking (uri σ) (experiments σ) (active σ) fs)
  | [] => mret tt
  end.

Definition mlflow_set_tracking_uri (u : string) : ST tracking unit :=
  σ ← get; put (Tracking u (experiments σ) (active σ) (faults σ)).

(** [mlflow.create_experiment(name)]: the id of the new experiment, or
    [RESOURCE_ALREADY_EXISTS]. *)
Definition mlflow_create_experiment (name : string) : ST tracking string :=
  request;;
  σ ← get;
  if decide (name ∈ experiments σ)
  then lift (Raise (MlflowException "RESOURCE_ALREADY_EXISTS"))
  else
    put (Tracking (uri σ) (experiments σ ++ [name]) (active σ) (faults σ));;
    mret (pretty (length (experiments σ))).

(** [mlflow.set_experiment(name)]: looks the experiment up, creates it when
    it is absent, and makes it the active one. *)
Definition mlflow_set_experiment (name : string) : ST tracking unit :=
  request;;
  σ ← get;
  put (Tracking (uri σ)
                (if decide (name ∈ experiments σ) then experiments σ
                 else experiments σ ++ [name])
                (Some name) (faults σ)).

(** The server is down for one request. *)
Definition tracking_down_once : tracking :=
  Tracking "" [] None [Some (ConnectionError "Max retries exceeded")].

(** ** Column labels

    What the tasks do to the labels of a frame.  The header and every row
    of a well-formed frame carry the same labels, so one function reads
    both. *)

(** [df[c] = ...] on a list of labels: a new label goes last. *)
Definition add_label (c : string) (ns : list string) : list string :=
  if decide (c ∈ ns) then ns else ns ++ [c].

(** The labels after the expansion of column [c] with categories
    [levels]. *)
Definition dummy_names (prefix c : string) (levels : list value)
    (ns : list string) : list string :=
  filter (λ k, k ≠ c) ns ++ (dummy_name prefix <$> levels).

Definition encode_names (d : DataFrame) (cs ns : list string) : list string :=
  foldl (λ ns c, dummy_names c c (levels_of (column d c)) ns) ns cs.

(** The labels of the Feature Builder's output, from the labels of its
    input [d]. *)
Definition feature_names (d : DataFrame) (ns : list string) : list string :=
  filter (λ k, k ∉ redundant_columns)
    (add_label "never_married"
       (add_label "age_bins" (encode_names d encoded_columns ns))).

(** The nine columns the Feature Builder reads. *)
Definition feature_inputs : list string :=
  encoded_columns ++ ["age"; "marital_status"].

(** The six columns the Cleaner names. *)
Definition cleaner_inputs : list string := renamed_columns ++ unused_columns.
(** The raw sample has the labels right and no row at all. *)
Definition census_empty : DataFrame := Frame (columns census_sample) [].

(** ** What a task leaves behind, whether it returns or raises *)



(** Three rows of the five. *)
Definition three_rows : DataFrame :=
  Frame (columns five_rows) (take 3 (rows five_rows)).

(** *** The metrics of the cross-validation *)

(** [f'cv_{k}_{idx}'] *)
Definition metric_name (k : string) (idx : nat) : string :=
  "cv_" +:+ k +:+ "_" +:+ pretty idx.

(** Lines 155-158 of [cross_validation].  [lgb_cv] is a dict from the name
    of a metric to the list of its values, one per boosting round; the loop
    takes the keys in their order, [lgb_cv[k]] is the value under [k], and
    an assignment to a key the dict [cv_metrics] has overwrites it. *)
Definition cv_metrics {V} (lgb_cv : list (string * list V)) : gmap string V :=
  foldl (λ m k,
           foldl (λ m iv, <[metric_name k iv.1 := iv.2]> m) m
                 (imap pair (default [] (assoc k lgb_cv))))
        ∅ lgb_cv.*1.

(** *** The confusion matrix *)

(** [unique_labels(y_true, y_pred)]: the labels of the two arrays, each
    once, in increasing order. *)
Definition unique_labels (y_true y_pred : list Z) : list Z :=
  merge_sort Z.le (remove_dups (y_true ++ y_pred)).

(** The number of samples with true label [t] and predicted label [p]. *)
Definition samples (y_true y_pred : list Z) (t p : Z) : nat :=
  length (filter (λ tp, tp = (t, p)) (zip y_true y_pred)).

(** [confusion_matrix(y_true, y_pred)]: one row for each label as the true
    label and one column for each label as the predicted one, in the order
    of the labels. *)
Definition confusion_matrix (y_true y_pred : list Z)
  : result (list (list nat)) :=
  if decide (length y_true = length y_pred)
  then
    let labels := unique_labels y_true y_pred in
    Ok ((λ t, samples y_true y_pred t <$> labels) <$> labels)
  else Raise (ValueError "Found input variables with inconsistent numbers of samples").

(** [cm.ravel()]: the rows of the matrix, one after the other. *)
Definition ravel {A} (cm : list (list A)) : list A := concat cm.

(** [a, b, c, d = l]: four names take four values, no more and no fewer. *)
Definition unpack4 {A} (l : list A) : result (A * A * A * A) :=
  match l with
  | [a; b; c; d] => Ok (a, b, c, d)
  | _ => Raise (ValueError "wrong number of values to unpack (expected 4)")
  end.

(** Lines 182-183 of [cross_validation]:
    [t_n, f_p, f_n, t_p = confusion_matrix(y_val, y_pred_class).ravel()]. *)
Definition confusion_counts (y_val y_pred_class : list Z)
  : result (nat * nat * nat * nat) :=
  cm ← confusion_matrix y_val y_pred_class; unpack4 (ravel cm).

(** * Properties *)

(** ** Exceptions and loops *)

Lemma traverse_Ok {A B} (f : A → result B) (l : list A) (l' : list B) :
  traverse f l = Ok l' → Forall2 (λ x y, f x = Ok y) l l'.
Proof.
  revert l'. induction l as [|x l IH]; intros l' H; simpl in H.
  - injection H as <-. constructor.
  - destruct (f x) as [y|e] eqn:Hx; simpl in H; [|done].
    destruct (traverse f l) as [ys|e] eqn:Hl; simpl in H; [|done].
    injection H as <-. constructor; auto.
Qed.

Lemma traverse_agree {A B} (f : A → result B) (g : A → B) l l' :
  (∀ x y, f x = Ok y → y = g x) → traverse f l = Ok l' → l' = g <$> l.
Proof.
  intros Hfg H. apply traverse_Ok in H.
  induction H as [|x y l l' Hxy _ IH]; [done|].
  simpl. f_equal; [by apply Hfg | done].
Qed.

(** ** Reading and writing by label *)

Section assoc.
Context {V : Type}.
Implicit Types (l : list (string * V)) (c : string) (v : V).

Lemma assoc_Some_elem l c v : assoc c l = Some v → (c, v) ∈ l.
Proof.
  induction l as [|[k w] l IH]; simpl; [done|].
  destruct (decide (k = c)) as [->|Hk]; intros Hv.
  - injection Hv as ->. left.
  - right. auto.
Qed.

Lemma assoc_is_Some l c : c ∈ l.*1 → is_Some (assoc c l).
Proof.
  induction l as [|[k w] l IH]; simpl.
  - intros H. by apply elem_of_nil in H.
  - intros Hc. destruct (decide (k = c)) as [->|Hk]; [eauto|].
    apply elem_of_cons in Hc as [->|Hc]; [done | auto].
Qed.

Lemma assoc_None l c : c ∉ l.*1 → assoc c l = None.
Proof.
  induction l as [|[k w] l IH]; simpl; [done|].
  intros Hc. apply not_elem_of_cons in Hc as [H1 H2].
  destruct (decide (k = c)); [congruence | auto].
Qed.

Lemma assoc_Some_names l c v : assoc c l = Some v → c ∈ l.*1.
Proof.
  intros H. apply assoc_Some_elem in H.
  apply list_elem_of_fmap. by exists (c, v).
Qed.

Lemma assoc_app_l l l' c : c ∈ l.*1 → assoc c (l ++ l') = assoc c l.
Proof.
  induction l as [|[k w] l IH]; simpl.
  - intros H. by apply elem_of_nil in H.
  - intros Hc. destruct (decide (k = c)) as [->|Hk]; [done|].
    apply elem_of_cons in Hc as [->|Hc]; [done | auto].
Qed.

Lemma assoc_app_r l l' c : c ∉ l.*1 → assoc c (l ++ l') = assoc c l'.
Proof.
  induction l as [|[k w] l IH]; simpl; [done|].
  intros Hc. apply not_elem_of_cons in Hc as [H1 H2].
  destruct (decide (k = c)); [congruence | auto].
Qed.

Lemma assoc_filter_notin (cs : list string) l c :
  c ∉ cs → assoc c (filter (λ p, p.1 ∉ cs) l) = assoc c l.
Proof.
  intros HP. induction l as [|[k w] l IH]; [done|].
  rewrite filter_cons. simpl. case_decide as Hk.
  - simpl. by case_decide.
  - case_decide; [congruence | done].
Qed.

Lemma assoc_filter_ne c0 l c :
  c ≠ c0 → assoc c (filter (λ p, p.1 ≠ c0) l) = assoc c l.
Proof.
  intros HP. induction l as [|[k w] l IH]; [done|].
  rewrite filter_cons. simpl. case_decide as Hk.
  - simpl. by case_decide.
  - case_decide; [congruence | done].
Qed.

Lemma assoc_set_names l c v :
  (assoc_set c v l).*1 = if decide (c ∈ l.*1) then l.*1 else l.*1 ++ [c].
Proof.
  unfold assoc_set. case_decide.
  - rewrite <- list_fmap_compose. apply list_fmap_ext.
    intros i [k w] _. simpl. by case_decide.
  - by rewrite fmap_app.
Qed.

Lemma assoc_set_eq l c v : assoc c (assoc_set c v l) = Some v.
Proof.
  unfold assoc_set. case_decide as Hc.
  - induction l as [|[k w] l IH]; simpl.
    + by apply elem_of_nil in Hc.
    + destruct (decide (k = c)) as [->|Hk]; simpl.
      * by rewrite decide_True.
      * rewrite decide_False by done.
        apply IH. simpl in Hc. apply elem_of_cons in Hc as [?|?]; done.
  - rewrite assoc_app_r by done. simpl. by rewrite decide_True.
Qed.

Lemma assoc_set_ne l c c' v : c ≠ c' → assoc c' (assoc_set c v l) = assoc c' l.
Proof.
  intros Hne. unfold assoc_set. case_decide as Hc.
  - clear Hc. induction l as [|[k w] l IH]; simpl; [done|].
    destruct (decide (k = c)) as [->|Hk]; simpl.
    + by rewrite !decide_False.
    + case_decide; [done | apply IH].
  - destruct (decide (c' ∈ l.*1)).
    + by rewrite assoc_app_l.
    + rewrite assoc_app_r by done. simpl.
      rewrite decide_False by done. by rewrite assoc_None.
Qed.

(** The values after a write under a label that is there. *)
Lemma assoc_set_values l c v (P : V → Prop) :
  c ∈ l.*1 → P v → Forall P l.*2 → Forall P (assoc_set c v l).*2.
Proof.
  intros Hc Hv Hl. unfold assoc_set. rewrite decide_True by done.
  clear Hc. induction l as [|[k w] l IH]; simpl; [constructor|].
  apply Forall_cons in Hl as [Hw Hl].
  constructor; [|by apply IH].
  case_decide; done.
Qed.
End assoc.

(** ** [df[dst] = df[src].apply(f)] *)

Lemma getitem_Ok d c s :
  getitem d c = Ok s →
  assoc c (columns d) = Some (sdtype s) ∧ svalues s = column d c.
Proof.
  unfold getitem. destruct (assoc c (columns d)) as [t|]; [|done].
  intros [= <-]. done.
Qed.

Lemma apply_Ok f g s s' :
  (∀ x y, f x = Ok y → y = g x) → apply f s = Ok s' →
  svalues s' = g <$> svalues s
  ∧ sdtype s' = infer_dtype (sdtype s) (g <$> svalues s).
Proof.
  intros Hfg. unfold apply.
  destruct (traverse f (svalues s)) as [l|e] eqn:Hl; simpl; [|done].
  intros [= <-]. simpl. apply (traverse_agree f g) in Hl as ->; done.
Qed.

Lemma setitem_Ok d c s d' :
  setitem d c s = Ok d' →
  length (svalues s) = length (rows d)
  ∧ columns d' = set_dtype c (sdtype s) (columns d)
  ∧ rows d' = zip_with (λ r v, Row (label r) (set_cell c v (cells r)))
                (rows d) (svalues s).
Proof. unfold setitem. case_decide; [|done]. intros [= <-]. done. Qed.

Lemma assign_rows d src dst f g s s' d' :
  (∀ x y, f x = Ok y → y = g x) →
  getitem d src = Ok s → apply f s = Ok s' → setitem d dst s' = Ok d' →
  rows d' = (λ r, Row (label r) (map_cell src dst g (cells r))) <$> rows d
  ∧ columns d' = set_dtype dst (sdtype s') (columns d).
Proof.
  intros Hfg Hs Hs' Hd'.
  apply getitem_Ok in Hs as [_ Hs].
  apply (apply_Ok f g) in Hs' as [Hs' _]; [|done].
  apply setitem_Ok in Hd' as (_ & Hc & Hr).
  split; [|done].
  rewrite Hr, Hs', Hs. unfold column.
  rewrite <- list_fmap_compose, zip_with_fmap_r, zip_with_diag.
  done.
Qed.

(** ** The Cleaner, frame by frame *)

Lemma strip_lambda_value x y : strip_lambda x = Ok y → y = strip_value x.
Proof. destruct x; simpl; congruence. Qed.

Lemma unknown_lambda_value x y : unknown_lambda x = Ok y → y = unknown_value x.
Proof. unfold unknown_lambda, unknown_value. congruence. Qed.

Lemma strip_lambda_str l l' :
  traverse strip_lambda l = Ok l' → Forall (λ y, ∃ s, y = VStr s) l'.
Proof.
  intros H. apply traverse_Ok in H.
  induction H as [|x y l l' Hxy _ IH]; constructor; [|done].
  destruct x; simpl in Hxy; simplify_eq. eauto.
Qed.

Lemma infer_dtype_str l :
  Forall (λ y, ∃ s, y = VStr s) l → infer_dtype object l = object.
Proof. intros [|? ? [s ->] _]; done. Qed.

Lemma strip_step_Ok d col d' :
  strip_step d col = Ok d' →
  rows d' = (λ r, Row (label r)
                (if decide (dtype_of col (columns d) = Some object)
                 then map_cell col col strip_value (cells r) else cells r))
              <$> rows d
  ∧ (∀ c, dtype_of c (columns d') = dtype_of c (columns d)).
Proof.
  unfold strip_step.
  destruct (dtype_of col (columns d)) as [t|] eqn:Ht; [|done].
  destruct (decide (t = object)) as [->|Hne].
  - destruct (decide (Some object = Some object)) as [_|]; [|done].
    destruct (getitem d col) as [s|] eqn:Hs; simpl; [|done].
    destruct (apply strip_lambda s) as [s'|] eqn:Hs'; simpl; [|done].
    intros Hd'.
    destruct (assign_rows d col col strip_lambda strip_value s s' d')
      as [Hr Hc]; auto using strip_lambda_value.
    split; [done|]. intros c. rewrite Hc.
    assert (sdtype s' = object) as ->.
    { apply getitem_Ok in Hs as [Hdt _].
      assert (sdtype s = object) as Hobj by congruence.
      revert Hs'. unfold apply.
      destruct (traverse strip_lambda (svalues s)) as [l|] eqn:Hl; [|done].
      simpl. intros [= <-]. simpl. rewrite Hobj.
      by apply infer_dtype_str, strip_lambda_str with (svalues s). }
    destruct (decide (col = c)) as [<-|Hcc].
    + by rewrite assoc_set_eq.
    + by rewrite assoc_set_ne.
  - intros [= <-]. split; [|done].
    destruct (decide (Some t = Some object)) as [|_]; [congruence|].
    rewrite <- (list_fmap_id (rows d)) at 1.
    apply list_fmap_ext. by intros i [] _.
Qed.

Lemma strip_cells_ext h h' cols l :
  (∀ c, dtype_of c h' = dtype_of c h) →
  strip_cells h' cols l = strip_cells h cols l.
Proof.
  intros Hh. unfold strip_cells. revert l.
  induction cols as [|c cols IH]; intros l; simpl; [done|].
  by rewrite Hh, IH.
Qed.

Lemma strip_loop_Ok cols d d' :
  strip_loop cols d = Ok d' →
  rows d' = (λ r, Row (label r) (strip_cells (columns d) cols (cells r)))
              <$> rows d
  ∧ (∀ c, dtype_of c (columns d') = dtype_of c (columns d)).
Proof.
  revert d. induction cols as [|col cols IH]; intros d; simpl.
  - intros [= <-]. split; [|done].
    rewrite <- (list_fmap_id (rows d)) at 1.
    apply list_fmap_ext. by intros i [] _.
  - destruct (strip_step d col) as [d1|] eqn:H1; simpl; [|done].
    intros H2. apply strip_step_Ok in H1 as [Hr1 Hc1].
    apply IH in H2 as [Hr2 Hc2]. split.
    + rewrite Hr2, Hr1, <- list_fmap_compose.
      apply list_fmap_ext. intros i r _. simpl.
      by rewrite (strip_cells_ext (columns d)).
    + intros c. by rewrite Hc2.
Qed.

Lemma unknown_step_Ok d c d' :
  unknown_step d c = Ok d' →
  rows d' = (λ r, Row (label r) (map_cell c c unknown_value (cells r)))
              <$> rows d
  ∧ c ∈ (columns d).*1
  ∧ (∀ c', c' ≠ c → dtype_of c' (columns d') = dtype_of c' (columns d)).
Proof.
  unfold unknown_step.
  destruct (getitem d c) as [s|] eqn:Hs; simpl; [|done].
  destruct (apply unknown_lambda s) as [s'|] eqn:Hs'; simpl; [|done].
  intros Hd'.
  destruct (assign_rows d c c unknown_lambda unknown_value s s' d')
    as [Hr Hc]; auto using unknown_lambda_value.
  split; [done|]. split.
  - apply getitem_Ok in Hs as [Hs _]. by apply assoc_Some_names in Hs.
  - intros c' Hne. rewrite Hc. by apply assoc_set_ne.
Qed.

Lemma drop_columns_Ok d cs d' :
  drop_columns d cs = Ok d' →
  Forall (λ c, c ∈ (columns d).*1) cs
  ∧ columns d' = filter (λ p, p.1 ∉ cs) (columns d)
  ∧ rows d' = (λ r, Row (label r) (filter (λ p, p.1 ∉ cs) (cells r)))
                <$> rows d.
Proof.
  unfold drop_columns.
  destruct (filter _ cs) as [|c ?] eqn:Hf; [|done].
  intros [= <-]. split; [|done].
  apply Forall_forall. intros c Hc.
  destruct (decide (c ∈ (columns d).*1)) as [|Hn]; [done|].
  assert (c ∈ filter (λ c, c ∉ (columns d).*1) cs) as Hin
    by by apply list_elem_of_filter.
  rewrite Hf in Hin. by apply elem_of_nil in Hin.
Qed.

(** The rows of the output are the rows that survive lines 61-62, each one
    cleaned on its own. *)
Lemma preprocessing_frame_rows d out :
  preprocessing_frame d = Ok out →
  rows out = clean_row (columns d) <$> rows (deduplicated d).
Proof.
  unfold preprocessing_frame.
  set (d0 := deduplicated d).
  assert (columns d0 = columns d) as Hc0 by done.
  destruct (strip_loop _ d0) as [d1|] eqn:H1; simpl; [|done].
  destruct (unknown_step d1 _) as [d2|] eqn:H2; simpl; [|done].
  destruct (unknown_step d2 _) as [d3|] eqn:H3; simpl; [|done].
  destruct (unknown_step d3 _) as [d4|] eqn:H4; simpl; [|done].
  intros H5.
  apply strip_loop_Ok in H1 as [H1 _].
  apply unknown_step_Ok in H2 as [H2 _], H3 as [H3 _], H4 as [H4 _].
  apply drop_columns_Ok in H5 as (_ & _ & H5).
  rewrite H5, H4, H3, H2, H1, <- !list_fmap_compose.
  apply list_fmap_ext. intros i r _. by rewrite Hc0.
Qed.

Lemma assoc_names_iff {V} (l : list (string * V)) c :
  c ∈ l.*1 ↔ is_Some (assoc c l).
Proof.
  split; [apply assoc_is_Some|]. intros [v Hv]. by apply assoc_Some_names in Hv.
Qed.

(** A run that returns found the three columns it rewrites. *)
Lemma preprocessing_frame_columns d out :
  preprocessing_frame d = Ok out →
  "workclass" ∈ (columns d).*1 ∧ "occupation" ∈ (columns d).*1
  ∧ "native_country" ∈ (columns d).*1.
Proof.
  unfold preprocessing_frame.
  set (d0 := deduplicated d).
  assert (columns d0 = columns d) as Hc0 by done.
  destruct (strip_loop _ d0) as [d1|] eqn:H1; simpl; [|done].
  destruct (unknown_step d1 _) as [d2|] eqn:H2; simpl; [|done].
  destruct (unknown_step d2 _) as [d3|] eqn:H3; simpl; [|done].
  destruct (unknown_step d3 _) as [d4|] eqn:H4; simpl; [|done].
  intros _.
  apply strip_loop_Ok in H1 as [_ H1].
  apply unknown_step_Ok in H2 as (_ & I2 & H2), H3 as (_ & I3 & H3),
    H4 as (_ & I4 & _).
  rewrite assoc_names_iff in I2, I3, I4 |- *.
  rewrite H3, H2 in I4 by done. rewrite H2 in I3 by done.
  rewrite !assoc_names_iff, <- Hc0, <- !H1. done.
Qed.

(** ** The Cleaner works in place *)

Lemma ST_bind_run {S A B} (m : ST S A) (f : A → ST S B) σ :
  (m ≫= f) σ = match m σ with
               | (Ok a, σ') => f a σ'
               | (Raise e, σ') => (Raise e, σ')
               end.
Proof. done. Qed.

Lemma load_run (σ : store) r d : σ !! r = Some d → load r σ = (Ok d, σ).
Proof. intros H. unfold load. by rewrite H. Qed.

Lemma updates_bind {A} r m1 (m2 : Py A) a F1 F2 :
  updates r m1 tt F1 → updates r m2 a F2 →
  updates r (m1;; m2) a (λ d, d' ← F1 d; F2 d').
Proof.
  intros H1 H2 σ d Hd. destruct (H1 σ d Hd) as (σ1 & Hm1 & Hσ1).
  rewrite ST_bind_run, Hm1.
  destruct (F1 d) as [d1|e]; simpl.
  - rewrite (Hσ1 d1 eq_refl).
    destruct (H2 (<[r := d1]> σ) d1 (lookup_insert_eq _ _ _))
      as (σ2 & Hm2 & Hσ2).
    exists σ2. split; [done|]. intros d2 Hd2.
    by rewrite (Hσ2 d2 Hd2), insert_insert_eq.
  - exists σ1. done.
Qed.

Lemma updates_ext {A} r (m : Py A) a F G :
  (∀ d, F d = G d) → updates r m a F → updates r m a G.
Proof. intros HFG H σ d Hd. rewrite <- HFG. by apply H. Qed.

Lemma updates_mret {A} r (a : A) : updates r (mret a) a Ok.
Proof.
  intros σ d Hd. exists σ. split; [done|].
  intros ? [= <-]. by rewrite insert_id.
Qed.

Lemma updates_dropna r : updates r (dropna_inplace r) tt (λ d, Ok (dropna d)).
Proof.
  intros σ d Hd. unfold dropna_inplace.
  rewrite ST_bind_run, (load_run σ r d Hd).
  eexists. split; [done|]. by intros d' [= <-].
Qed.

Lemma updates_drop_duplicates r :
  updates r (drop_duplicates_inplace r) tt (λ d, Ok (drop_duplicates d)).
Proof.
  intros σ d Hd. unfold drop_duplicates_inplace.
  rewrite ST_bind_run, (load_run σ r d Hd).
  eexists. split; [done|]. by intros d' [= <-].
Qed.

Lemma updates_columns {A} r (k : list string → Py A) a F :
  (∀ cols, updates r (k cols) a (F cols)) →
  updates r (cols ← columns_at r; k cols) a (λ d, F (columns d).*1 d).
Proof.
  intros Hk σ d Hd. unfold columns_at.
  rewrite !ST_bind_run, (load_run σ r d Hd).
  unfold mret at 1, ST_ret. by apply Hk.
Qed.

Lemma updates_drop r cs :
  updates r (drop_inplace r cs) tt (λ d, drop_columns d cs).
Proof.
  intros σ d Hd. unfold drop_inplace.
  rewrite ST_bind_run, (load_run σ r d Hd), ST_bind_run. unfold lift.
  destruct (drop_columns d cs) as [d'|e]; simpl.
  - eexists. split; [done|]. by intros ? [= <-].
  - eexists. done.
Qed.

Lemma updates_assign r c f :
  updates r (s ← getitem_at r c; s' ← lift (apply f s); setitem_at r c s')
            tt (λ d, s ← getitem d c; s' ← apply f s; setitem d c s').
Proof.
  intros σ d Hd. unfold getitem_at, setitem_at.
  rewrite !ST_bind_run, (load_run σ r d Hd). unfold lift at 1.
  destruct (getitem d c) as [s|]; simpl; [|by eexists].
  rewrite !ST_bind_run. unfold lift at 1.
  destruct (apply f s) as [s'|]; simpl; [|by eexists].
  rewrite !ST_bind_run, (load_run σ r d Hd). unfold lift at 1.
  destruct (setitem d c s') as [d'|]; simpl; [|by eexists].
  eexists. split; [done|]. by intros ? [= <-].
Qed.

Lemma updates_strip_step r col :
  updates r (t ← dtypes_at r col;
             if decide (t = object)
             then s ← getitem_at r col;
                  s' ← lift (apply strip_lambda s);
                  setitem_at r col s'
             else mret tt)
            tt (λ d, strip_step d col).
Proof.
  intros σ d Hd. unfold strip_step, dtypes_at.
  rewrite !ST_bind_run, (load_run σ r d Hd).
  destruct (dtype_of col (columns d)) as [t|]; [|by eexists].
  unfold mret at 1, ST_ret.
  destruct (decide (t = object)).
  - by apply updates_assign.
  - exists σ. split; [done|]. intros ? [= <-]. by rewrite insert_id.
Qed.

Lemma updates_for_each r cols :
  updates r (for_each cols (λ col,
               t ← dtypes_at r col;
               if decide (t = object)
               then s ← getitem_at r col;
                    s' ← lift (apply strip_lambda s);
                    setitem_at r col s'
               else mret tt))
            tt (strip_loop cols).
Proof.
  induction cols as [|col cols IH]; simpl.
  - intros σ d Hd. exists σ. split; [done|].
    intros ? [= <-]. by rewrite insert_id.
  - eapply updates_ext; [|apply updates_bind; [apply updates_strip_step|apply IH]].
    done.
Qed.

(** The task on a store in which its argument is a DataFrame: it returns its
    argument, and the frame there is the one [preprocessing_frame] gives. *)
Lemma preprocessing_updates r :
  updates r (preprocessing r) r preprocessing_frame.
Proof.
  unfold preprocessing.
  eapply updates_ext;
    [|apply updates_bind; [apply updates_dropna|];
      apply updates_bind; [apply updates_drop_duplicates|];
      apply (updates_columns r _ r
               (λ cols d, d ← strip_loop cols d;
                          d ← unknown_step d "workclass";
                          d ← unknown_step d "occupation";
                          d ← unknown_step d "native_country";
                          d ← drop_columns d unused_columns;
                          Ok d));
      intros cols;
      repeat (apply updates_bind;
              [first [apply updates_for_each | apply updates_assign
                     | apply updates_drop]|]);
      apply updates_mret].
  intros d. unfold preprocessing_frame, deduplicated. simpl.
  destruct (strip_loop _ _) as [d1|]; simpl; [|done].
  destruct (unknown_step d1 _) as [d2|]; simpl; [|done].
  destruct (unknown_step d2 _) as [d3|]; simpl; [|done].
  destruct (unknown_step d3 _) as [d4|]; simpl; [|done].
  by destruct (drop_columns d4 _).
Qed.

Lemma preprocessing_run (σ : store) r d :
  σ !! r = Some d →
  ∃ σ', preprocessing r σ = (_ ← preprocessing_frame d; Ok r, σ')
        ∧ ∀ d', preprocessing_frame d = Ok d' → σ' = <[r := d']> σ.
Proof. apply preprocessing_updates. Qed.

Lemma preprocessing_not_a_frame (σ : store) r :
  σ !! r = None → ∃ e, preprocessing r σ = (Raise e, σ).
Proof.
  intros Hr. unfold preprocessing, dropna_inplace, load.
  rewrite !ST_bind_run, Hr. eauto.
Qed.

Lemma preprocessing_Ok (σ σ' : store) r r' :
  preprocessing r σ = (Ok r', σ') →
  ∃ d out, σ !! r = Some d ∧ preprocessing_frame d = Ok out
           ∧ r' = r ∧ σ' = <[r := out]> σ.
Proof.
  intros Hrun. destruct (σ !! r) as [d|] eqn:Hd.
  - destruct (preprocessing_run σ r d Hd) as (σ1 & Hm & Hσ1).
    rewrite Hrun in Hm.
    destruct (preprocessing_frame d) as [out|e] eqn:Hout; simpl in Hm; [|done].
    injection Hm as -> ->. exists d, out. eauto.
  - destruct (preprocessing_not_a_frame σ r Hd) as [e He]. congruence.
Qed.

(** C3, as the code has it: the Cleaner is a function of the frame it is
    given, but it is not pure.  A run that returns has cleaned the caller's
    object in place and returns a reference to that same object; the frame
    there is [preprocessing_frame] of the frame that was there, and no other
    object has changed. *)
Theorem preprocessing_in_place (σ σ' : store) (df r : loc) :
  preprocessing df σ = (Ok r, σ') →
  r = df
  ∧ ∃ d out, σ !! df = Some d ∧ preprocessing_frame d = Ok out
             ∧ σ' !! df = Some out
             ∧ ∀ q, q ≠ df → σ' !! q = σ !! q.
Proof.
  intros (d & out & Hd & Hout & -> & ->)%preprocessing_Ok.
  split; [done|]. exists d, out. repeat split; [done..| |].
  - apply lookup_insert_eq.
  - intros q Hq. by apply lookup_insert_ne.
Qed.

Lemma preprocessing_in_place_witness :
  ∃ d out, sample_store !! 1%positive = Some d
           ∧ preprocessing_frame d = Ok out
           ∧ (preprocessing 1%positive sample_store).2 !! 1%positive = Some out
           ∧ ∀ q, q ≠ 1%positive →
                  (preprocessing 1%positive sample_store).2 !! q
                  = sample_store !! q.
Proof.
  apply (preprocessing_in_place sample_store _ 1%positive 1%positive).
  vm_compute. reflexivity.
Defined.

(** C3, as stated, fails: on the sample the frame in the caller's object is
    not the same before and after the call. *)
Lemma preprocessing_mutates_input :
  (preprocessing 1%positive sample_store).1 = Ok 1%positive
  ∧ (preprocessing 1%positive sample_store).2 !! 1%positive
    ≠ sample_store !! 1%positive.
Proof.
  split; [by vm_compute|].
  intros H. apply (f_equal (fmap (λ d : DataFrame, length (rows d)))) in H.
  vm_compute in H. discriminate.
Qed.

(** ** Missing values and duplicates *)

Lemma forallb_notna (l : list (string * value)) :
  forallb (λ p, notna p.2) l = true ↔ Forall (λ v, v ≠ NA) l.*2.
Proof.
  induction l as [|[k v] l IH]; simpl.
  - split; [constructor | done].
  - rewrite andb_true_iff, Forall_cons, IH.
    destruct v; simpl; split; intros [? ?]; done.
Qed.

Lemma keep_first_elem seen l r : r ∈ keep_first seen l → r ∈ l.
Proof.
  revert seen. induction l as [|x l IH]; intros seen; simpl; [done|].
  case_decide.
  - intros Hr. right. eauto.
  - intros [->|Hr]%elem_of_cons; [left | right; eauto].
Qed.

Lemma keep_first_fresh seen l r :
  r ∈ keep_first seen l → cells r ∉ seen.
Proof.
  revert seen. induction l as [|x l IH]; intros seen; simpl.
  - by intros ?%elem_of_nil.
  - case_decide as Hx; [by apply IH|].
    intros [->|Hr]%elem_of_cons; [done|].
    apply IH in Hr. by apply not_elem_of_cons in Hr as [_ ?].
Qed.

Lemma keep_first_NoDup seen l : NoDup (cells <$> keep_first seen l).
Proof.
  revert seen. induction l as [|x l IH]; intros seen; simpl.
  - constructor.
  - case_decide as Hx; [by apply IH|].
    rewrite fmap_cons. constructor; [|by apply IH].
    intros (r & Hc & Hr)%list_elem_of_fmap.
    apply keep_first_fresh in Hr. rewrite <- Hc in Hr.
    apply Hr. left.
Qed.

Lemma keep_first_complete seen l r :
  r ∈ l → cells r ∈ seen ∨ cells r ∈ cells <$> keep_first seen l.
Proof.
  revert seen. induction l as [|x l IH]; intros seen; simpl.
  - by intros ?%elem_of_nil.
  - intros [->|Hr]%elem_of_cons.
    + case_decide; [by left|]. right. rewrite fmap_cons. left.
    + case_decide; [by apply IH|].
      destruct (IH (cells x :: seen) Hr) as [[->|?]%elem_of_cons|?].
      * right. rewrite fmap_cons. left.
      * by left.
      * right. rewrite fmap_cons. by right.
Qed.

(** What lines 61-62 keep: rows of the input without a missing value, no
    two of them with the same cells, and one for each such row of the
    input. *)
Lemma deduplicated_rows d :
  NoDup (cells <$> rows (deduplicated d))
  ∧ (∀ r, r ∈ rows (deduplicated d) →
          r ∈ rows d ∧ Forall (λ v, v ≠ NA) (cells r).*2)
  ∧ (∀ r, r ∈ rows d → Forall (λ v, v ≠ NA) (cells r).*2 →
          cells r ∈ cells <$> rows (deduplicated d)).
Proof.
  unfold deduplicated, drop_duplicates, dropna. simpl.
  split; [apply keep_first_NoDup|]. split.
  - intros r Hr%keep_first_elem.
    apply list_elem_of_filter in Hr as [Hna Hr].
    split; [done|]. by apply forallb_notna.
  - intros r Hr Hna.
    destruct (keep_first_complete [] (filter
      (λ r, forallb (λ p, notna p.2) (cells r) = true) (rows d)) r) as [H|H].
    + apply list_elem_of_filter. split; [|done]. by apply forallb_notna.
    + by apply elem_of_nil in H.
    + done.
Qed.

(** ** The Cleaner, row by row *)

Lemma strip_value_notna v : v ≠ NA → strip_value v ≠ NA.
Proof. by destruct v. Qed.

Lemma unknown_value_notna v : v ≠ NA → unknown_value v ≠ NA.
Proof. unfold unknown_value. by case_decide. Qed.

Lemma map_cell_notna c g (l : list (string * value)) :
  (∀ v, v ≠ NA → g v ≠ NA) → c ∈ l.*1 → Forall (λ v, v ≠ NA) l.*2 →
  Forall (λ v, v ≠ NA) (map_cell c c g l).*2.
Proof.
  intros Hg Hc Hl. unfold map_cell. apply assoc_set_values; [done| |done].
  destruct (assoc_is_Some l c Hc) as [v Hv]. rewrite Hv. simpl.
  apply Hg. apply assoc_Some_elem in Hv.
  rewrite Forall_forall in Hl. apply Hl.
  apply list_elem_of_fmap. by exists (c, v).
Qed.

Lemma map_cell_names c g (l : list (string * value)) :
  c ∈ l.*1 → (map_cell c c g l).*1 = l.*1.
Proof.
  intros Hc. unfold map_cell. rewrite assoc_set_names. by rewrite decide_True.
Qed.

Lemma strip_cells_notna h cols (l : list (string * value)) :
  cols ⊆ l.*1 → Forall (λ v, v ≠ NA) l.*2 →
  Forall (λ v, v ≠ NA) (strip_cells h cols l).*2
  ∧ (strip_cells h cols l).*1 = l.*1.
Proof.
  unfold strip_cells. revert l.
  induction cols as [|c cols IH]; intros l Hcols Hl; simpl; [done|].
  assert (c ∈ l.*1) as Hc by (apply Hcols; left).
  assert (cols ⊆ l.*1) as Hcols' by (intros x Hx; apply Hcols; by right).
  case_decide.
  - destruct (IH (map_cell c c strip_value l)) as [H1 H2].
    + by rewrite map_cell_names.
    + by apply map_cell_notna; [apply strip_value_notna|..].
    + split; [done|]. by rewrite H2, map_cell_names.
  - by apply IH.
Qed.

Lemma clean_cells_notna h (l : list (string * value)) :
  l.*1 = h.*1 → "workclass" ∈ h.*1 → "occupation" ∈ h.*1 →
  "native_country" ∈ h.*1 → Forall (λ v, v ≠ NA) l.*2 →
  Forall (λ v, v ≠ NA) (clean_cells h l).*2.
Proof.
  intros Hn Hw Ho Hc Hl. unfold clean_cells.
  destruct (strip_cells_notna h h.*1 l) as [H1 N1]; [by rewrite Hn|done|].
  rewrite <- Hn, <- N1 in Hw, Ho, Hc.
  pose proof (map_cell_notna "workclass" unknown_value _
                unknown_value_notna Hw H1) as H2.
  pose proof (map_cell_names "workclass" unknown_value _ Hw) as N2.
  rewrite <- N2 in Ho, Hc.
  pose proof (map_cell_notna "occupation" unknown_value _
                unknown_value_notna Ho H2) as H3.
  pose proof (map_cell_names "occupation" unknown_value _ Ho) as N3.
  rewrite <- N3 in Hc.
  pose proof (map_cell_notna "native_country" unknown_value _
                unknown_value_notna Hc H3) as H4.
  revert H4. generalize (map_cell "native_country" "native_country"
    unknown_value (map_cell "occupation" "occupation" unknown_value
      (map_cell "workclass" "workclass" unknown_value
         (strip_cells h h.*1 l)))).
  intros l'. rewrite !Forall_fmap, !Forall_forall.
  intros Hl' p [_ Hp]%list_elem_of_filter. by apply Hl'.
Qed.

Lemma wf_names d r : wf d → r ∈ rows d → (cells r).*1 = (columns d).*1.
Proof.
  intros Hwf Hr. unfold wf in Hwf. rewrite Forall_forall in Hwf.
  specialize (Hwf r Hr).
  induction Hwf as [|p q l h [Hpq _] _ IH]; simpl; [done|]. by f_equal.
Qed.

Lemma preprocessing_frame_notna d out :
  wf d → preprocessing_frame d = Ok out →
  ∀ r, r ∈ rows out → Forall (λ v, v ≠ NA) (cells r).*2.
Proof.
  intros Hwf Hout r Hr.
  destruct (preprocessing_frame_columns d out Hout) as (Hw & Ho & Hc).
  rewrite (preprocessing_frame_rows d out Hout) in Hr.
  apply list_elem_of_fmap in Hr as (r0 & -> & Hr0).
  destruct (deduplicated_rows d) as (_ & Hkept & _).
  destruct (Hkept r0 Hr0) as [Hin Hna]. simpl.
  apply clean_cells_notna; auto using wf_names.
Qed.

(** C4, as the code has it: the output of the Cleaner has no missing value,
    and it has one row for each distinct row of the input that has no
    missing value.  The rows are compared as they come in: the rows kept
    after lines 61-62 are pairwise distinct, and each is then trimmed and
    loses three columns on its own, so output rows may coincide. *)
Theorem preprocessing_no_missing_value (σ σ' : store) (df r : loc) d out :
  σ !! df = Some d → wf d →
  preprocessing df σ = (Ok r, σ') → σ' !! r = Some out →
  (∀ ro c v, ro ∈ rows out → (c, v) ∈ cells ro → v ≠ NA)
  ∧ rows out = clean_row (columns d) <$> rows (deduplicated d)
  ∧ NoDup (cells <$> rows (deduplicated d))
  ∧ (∀ ri, ri ∈ rows (deduplicated d) →
           ri ∈ rows d ∧ Forall (λ v, v ≠ NA) (cells ri).*2)
  ∧ (∀ ri, ri ∈ rows d → Forall (λ v, v ≠ NA) (cells ri).*2 →
           cells ri ∈ cells <$> rows (deduplicated d)).
Proof.
  intros Hd Hwf (d1 & out1 & Hd1 & Hout & -> & ->)%preprocessing_Ok Hr.
  rewrite lookup_insert_eq in Hr. injection Hr as ->.
  rewrite Hd in Hd1. injection Hd1 as <-.
  split; [|split; [by apply preprocessing_frame_rows|apply deduplicated_rows]].
  intros ro c v Hro Hcv.
  pose proof (preprocessing_frame_notna d out Hwf Hout ro Hro) as Hna.
  rewrite Forall_forall in Hna. apply Hna.
  apply list_elem_of_fmap. by exists (c, v).
Qed.

Lemma preprocessing_no_missing_value_witness :
  wf census_sample
  ∧ ∀ ro c v,
      ro ∈ rows (default census_sample
                   ((preprocessing 1%positive sample_store).2 !! 1%positive)) →
      (c, v) ∈ cells ro → v ≠ NA.
Proof.
  assert (wf census_sample) as Hwf
    by (apply (bool_decide_unpack _); vm_compute; exact I).
  split; [exact Hwf|].
  apply (preprocessing_no_missing_value sample_store
           (preprocessing 1%positive sample_store).2 1%positive 1%positive
           census_sample).
  - reflexivity.
  - exact Hwf.
  - vm_compute. reflexivity.
  - vm_compute. reflexivity.
Defined.

(** C4, as stated, fails: rows 1 and 2 of the sample differ in
    [education_num] only, both pass line 62, and the output holds the same
    cells twice. *)
Lemma preprocessing_keeps_duplicates :
  wf census_sample
  ∧ (preprocessing 1%positive sample_store).1 = Ok 1%positive
  ∧ ∃ out, (preprocessing 1%positive sample_store).2 !! 1%positive = Some out
           ∧ ¬ NoDup (cells <$> rows out).
Proof.
  split; [apply (bool_decide_unpack _); by vm_compute|].
  split; [by vm_compute|].
  eexists. split; [vm_compute; reflexivity|].
  intros Hnd. apply (bool_decide_pack _) in Hnd. by vm_compute in Hnd.
Qed.

(** ** Trimming *)

Example strip_examples :
  rstrip " a b  " = " a b" ∧ lstrip " a b  " = "a b  "
  ∧ lstrip (rstrip "  ? ") = "?" ∧ lstrip (rstrip "   ") = ""
  ∧ lstrip (rstrip "Never-married") = "Never-married".
Proof. by vm_compute. Qed.

Lemma rstrip_blank ws : blank ws = true → rstrip ws = "".
Proof.
  induction ws as [|a ws IH]; simpl; [done|].
  intros [Ha Hws]%andb_true_iff. by rewrite IH, Ha.
Qed.

Lemma rstrip_app ws t :
  rstrip t ≠ "" → rstrip (ws +:+ t) = ws +:+ rstrip t.
Proof.
  intros Ht. induction ws as [|a ws IH]; [done|].
  change (String a ws +:+ t) with (String a (ws +:+ t)).
  change (String a ws +:+ rstrip t) with (String a (ws +:+ rstrip t)).
  simpl. rewrite IH.
  destruct (ws +:+ rstrip t) eqn:Happ; [|done].
  destruct ws; [|done]. by destruct (rstrip t).
Qed.

Lemma lstrip_app ws t : blank ws = true → lstrip (ws +:+ t) = lstrip t.
Proof.
  induction ws as [|a ws IH]; [done|].
  change (String a ws +:+ t) with (String a (ws +:+ t)). simpl.
  intros [Ha Hws]%andb_true_iff. rewrite Ha. auto.
Qed.

(** ['?'] between blanks trims to ['?']. *)
Lemma strip_question ws1 ws2 :
  blank ws1 = true → blank ws2 = true →
  lstrip (rstrip (ws1 +:+ "?" +:+ ws2)) = "?".
Proof.
  intros H1 H2.
  assert (rstrip ("?" +:+ ws2) = "?") as Hq.
  { change ("?" +:+ ws2) with (String "?" ws2). simpl.
    by rewrite rstrip_blank. }
  rewrite rstrip_app by by rewrite Hq.
  rewrite Hq. by rewrite lstrip_app.
Qed.

(** ** The three renamed columns *)

Lemma strip_cells_question_fixed h cols (l : list (string * value)) c :
  cell c l = Some (VStr "?") →
  cell c (strip_cells h cols l) = Some (VStr "?").
Proof.
  unfold strip_cells. revert l.
  induction cols as [|c0 cols IH]; intros l Hl; simpl; [done|].
  apply IH. case_decide; [|done]. unfold map_cell.
  destruct (decide (c0 = c)) as [->|Hne].
  - by rewrite assoc_set_eq, Hl.
  - by rewrite assoc_set_ne.
Qed.

Lemma strip_cells_question h cols (l : list (string * value)) c s :
  cell c l = Some (VStr s) → lstrip (rstrip s) = "?" →
  dtype_of c h = Some object → c ∈ cols →
  cell c (strip_cells h cols l) = Some (VStr "?").
Proof.
  intros Hl Hs Hobj. revert l Hl.
  induction cols as [|c0 cols IH]; intros l Hl Hc.
  - by apply elem_of_nil in Hc.
  - destruct (decide (c0 = c)) as [->|Hne].
    + change (strip_cells h (c :: cols) l)
        with (strip_cells h cols
                (if decide (dtype_of c h = Some object)
                 then map_cell c c strip_value l else l)).
      rewrite decide_True by done.
      apply strip_cells_question_fixed. unfold map_cell.
      rewrite assoc_set_eq, Hl. simpl. by rewrite Hs.
    + apply elem_of_cons in Hc as [->|Hc]; [done|].
      change (strip_cells h (c0 :: cols) l)
        with (strip_cells h cols
                (if decide (dtype_of c0 h = Some object)
                 then map_cell c0 c0 strip_value l else l)).
      apply IH; [|done]. case_decide; [|done].
      unfold map_cell. by rewrite assoc_set_ne.
Qed.

Lemma clean_cells_renamed h (l : list (string * value)) c :
  c ∈ renamed_columns →
  cell c (clean_cells h l)
  = Some (unknown_value (default NA (cell c (strip_cells h h.*1 l)))).
Proof.
  intros Hc. unfold clean_cells.
  rewrite assoc_filter_notin.
  2:{ unfold renamed_columns in Hc.
      rewrite !elem_of_cons, elem_of_nil in Hc.
      destruct Hc as [->|[->|[->|[]]]];
        apply (bool_decide_unpack _); by vm_compute. }
  unfold renamed_columns in Hc. unfold map_cell.
  rewrite !elem_of_cons, elem_of_nil in Hc.
  destruct Hc as [->|[->|[->|[]]]].
  - rewrite !assoc_set_ne by done. by rewrite assoc_set_eq.
  - rewrite assoc_set_ne by done. rewrite assoc_set_eq.
    by rewrite assoc_set_ne.
  - rewrite assoc_set_eq. by rewrite !assoc_set_ne.
Qed.

Lemma unknown_value_question v : unknown_value v ≠ VStr "?".
Proof. unfold unknown_value. case_decide; [done|congruence]. Qed.

Lemma wf_str_object (l : list (string * value)) h c s :
  Forall2 (λ p q, p.1 = q.1 ∧ conforms q.2 p.2) l h →
  cell c l = Some (VStr s) → dtype_of c h = Some object.
Proof.
  induction 1 as [|[k v] [k' t] l h [Hk Ht] _ IH]; simpl in *; [done|].
  subst k'. case_decide; [|done].
  intros [= ->]. by destruct t.
Qed.

(** C5: no row of the Cleaner's output has ['?'] in [workclass],
    [occupation] or [native_country], and a row that came in with ['?'] in
    one of them goes out with ['Unknown'] there. *)
Theorem preprocessing_no_question_mark (σ σ' : store) (df r : loc) d out :
  σ !! df = Some d →
  preprocessing df σ = (Ok r, σ') → σ' !! r = Some out →
  (∀ ro c, ro ∈ rows out → c ∈ renamed_columns →
           cell c (cells ro) ≠ Some (VStr "?"))
  ∧ Forall2 (λ ri ro,
       label ro = label ri
       ∧ ∀ c, c ∈ renamed_columns →
              cell c (cells ri) = Some (VStr "?") →
              cell c (cells ro) = Some (VStr "Unknown"))
      (rows (deduplicated d)) (rows out).
Proof.
  intros Hd (d1 & out1 & Hd1 & Hout & -> & ->)%preprocessing_Ok Hr.
  rewrite lookup_insert_eq in Hr. injection Hr as ->.
  rewrite Hd in Hd1. injection Hd1 as <-.
  rewrite (preprocessing_frame_rows d out Hout). split.
  - intros ro c (ri & -> & _)%list_elem_of_fmap Hc. simpl.
    rewrite clean_cells_renamed by done.
    intros [= H]. by apply unknown_value_question in H.
  - apply Forall2_fmap_r, Forall_Forall2_diag, Forall_forall.
    intros ri _. split; [done|]. intros c Hc Hq. simpl.
    rewrite clean_cells_renamed by done.
    by rewrite (strip_cells_question_fixed _ _ _ _ Hq).
Qed.

Lemma preprocessing_no_question_mark_witness :
  (preprocessing 1%positive sample_store).1 = Ok 1%positive
  ∧ ∀ ro c,
      ro ∈ rows (default census_sample
                   ((preprocessing 1%positive sample_store).2 !! 1%positive)) →
      c ∈ renamed_columns → cell c (cells ro) ≠ Some (VStr "?").
Proof.
  split; [by vm_compute|].
  apply (preprocessing_no_question_mark sample_store
           (preprocessing 1%positive sample_store).2 1%positive 1%positive
           census_sample).
  - reflexivity.
  - vm_compute. reflexivity.
  - vm_compute. reflexivity.
Defined.

(** C10: the Cleaner trims before it renames.  A row that came in with
    ['?'] between blanks in [workclass], [occupation] or [native_country]
    goes out with ['Unknown'] there. *)
Theorem preprocessing_trims_then_renames (σ σ' : store) (df r : loc) d out :
  σ !! df = Some d → wf d →
  preprocessing df σ = (Ok r, σ') → σ' !! r = Some out →
  Forall2 (λ ri ro,
     label ro = label ri
     ∧ ∀ c ws1 ws2, c ∈ renamed_columns →
         blank ws1 = true → blank ws2 = true →
         cell c (cells ri) = Some (VStr (ws1 +:+ "?" +:+ ws2)) →
         cell c (cells ro) = Some (VStr "Unknown"))
    (rows (deduplicated d)) (rows out).
Proof.
  intros Hd Hwf (d1 & out1 & Hd1 & Hout & -> & ->)%preprocessing_Ok Hr.
  rewrite lookup_insert_eq in Hr. injection Hr as ->.
  rewrite Hd in Hd1. injection Hd1 as <-.
  rewrite (preprocessing_frame_rows d out Hout).
  apply Forall2_fmap_r, Forall_Forall2_diag, Forall_forall.
  intros ri Hri. split; [done|]. intros c ws1 ws2 Hc H1 H2 Hq. simpl.
  rewrite clean_cells_renamed by done.
  destruct (deduplicated_rows d) as (_ & Hkept & _).
  destruct (Hkept ri Hri) as [Hin _].
  unfold wf in Hwf. rewrite Forall_forall in Hwf.
  pose proof (wf_str_object _ _ _ _ (Hwf ri Hin) Hq) as Hobj.
  rewrite (strip_cells_question (columns d) (columns d).*1 (cells ri) c
             (ws1 +:+ "?" +:+ ws2)); auto using strip_question.
  by apply assoc_Some_names in Hobj.
Qed.

Lemma preprocessing_trims_then_renames_witness :
  Forall2 (λ ri ro,
     label ro = label ri
     ∧ ∀ c ws1 ws2, c ∈ renamed_columns →
         blank ws1 = true → blank ws2 = true →
         cell c (cells ri) = Some (VStr (ws1 +:+ "?" +:+ ws2)) →
         cell c (cells ro) = Some (VStr "Unknown"))
    (rows (deduplicated census_sample))
    (rows (default census_sample
             ((preprocessing 1%positive sample_store).2 !! 1%positive))).
Proof.
  apply (preprocessing_trims_then_renames sample_store
           (preprocessing 1%positive sample_store).2 1%positive 1%positive
           census_sample).
  - reflexivity.
  - apply (bool_decide_unpack _). vm_compute. exact I.
  - vm_compute. reflexivity.
  - vm_compute. reflexivity.
Defined.

(** ** The Feature Builder, frame by frame *)

Lemma get_dummies_Ok d prefix c d' :
  get_dummies d prefix c = Ok d' →
  rows d' = (λ r, Row (label r)
                    (dummies prefix c (levels_of (column d c)) (cells r)))
              <$> rows d.
Proof.
  unfold get_dummies.
  destruct (getitem d c) as [s|] eqn:Hs; simpl; [|done].
  apply getitem_Ok in Hs as [_ ->]. by intros [= <-].
Qed.

Lemma feature_engineering_unfold d :
  feature_engineering d =
    (d ← encode_loop encoded_columns d;
     age ← getitem d "age";
     age_bins ← cut age age_edges age_labels;
     d ← setitem d "age_bins" age_bins;
     marital_status ← getitem d "marital_status";
     never_married ← apply never_married_lambda marital_status;
     d ← setitem d "never_married" never_married;
     drop_columns d redundant_columns).
Proof.
  unfold feature_engineering. simpl.
  repeat (match goal with
          | |- context [get_dummies ?d ?p ?c] =>
              destruct (get_dummies d p c); simpl; [|done]
          end).
  done.
Qed.

(** An indicator label is none of the labels the task uses by name. *)
Lemma dummy_name_fresh_all :
  Forall (λ c, Forall (λ k, ∀ lv, dummy_name c lv ≠ k) fixed_labels)
    encoded_columns.
Proof.
  unfold fixed_labels, encoded_columns. simpl.
  repeat first [apply Forall_nil_2 | apply Forall_cons_2];
    intros lv; cbv [dummy_name String.append]; discriminate.
Qed.

Lemma dummy_name_fresh c lv k :
  c ∈ encoded_columns → k ∈ fixed_labels → dummy_name c lv ≠ k.
Proof.
  intros Hc Hk. pose proof dummy_name_fresh_all as H.
  rewrite Forall_forall in H. specialize (H c Hc).
  rewrite Forall_forall in H. by apply H.
Qed.

Lemma indicators_names prefix L v :
  (indicators prefix L v).*1 = dummy_name prefix <$> L.
Proof.
  unfold indicators. rewrite <- list_fmap_compose. by apply list_fmap_ext.
Qed.

Lemma cell_dummies prefix c L (l : list (string * value)) k :
  k ≠ c → (∀ lv, dummy_name prefix lv ≠ k) →
  cell k (dummies prefix c L l) = cell k l.
Proof.
  intros Hkc Hfresh. unfold dummies.
  destruct (decide (k ∈ l.*1)) as [Hin|Hout].
  - rewrite assoc_app_l, assoc_filter_ne; [done..|].
    apply assoc_names_iff. rewrite assoc_filter_ne by done.
    by apply assoc_names_iff.
  - rewrite assoc_app_r.
    + rewrite (assoc_None l k) by done. apply assoc_None.
      rewrite indicators_names.
      intros (lv & Hlv & _)%list_elem_of_fmap. by apply (Hfresh lv).
    + intros Hin%assoc_names_iff. rewrite assoc_filter_ne in Hin by done.
      by apply assoc_names_iff in Hin.
Qed.

Lemma cell_encode_cells d cs (l : list (string * value)) k :
  k ∉ cs → (∀ c lv, c ∈ cs → dummy_name c lv ≠ k) →
  cell k (encode_cells d cs l) = cell k l.
Proof.
  unfold encode_cells. revert l.
  induction cs as [|c cs IH]; intros l Hk Hfresh; simpl; [done|].
  apply not_elem_of_cons in Hk as [Hkc Hk].
  rewrite IH; [|done|].
  - apply cell_dummies; [done|]. intros lv. apply Hfresh. left.
  - intros c' lv Hc'. apply Hfresh. by right.
Qed.

Lemma column_rows d d' f c :
  rows d' = (λ r, Row (label r) (f (cells r))) <$> rows d →
  (∀ l, cell c (f l) = cell c l) → column d' c = column d c.
Proof.
  intros Hr Hf. unfold column. rewrite Hr, <- list_fmap_compose.
  apply list_fmap_ext. intros i r _. simpl. by rewrite Hf.
Qed.

Lemma encode_loop_Ok d0 cs : ∀ done_cs d d',
  NoDup (done_cs ++ cs) →
  (∀ c c' lv, c ∈ done_cs ++ cs → c' ∈ done_cs ++ cs → dummy_name c lv ≠ c') →
  rows d = (λ r, Row (label r) (encode_cells d0 done_cs (cells r))) <$> rows d0 →
  encode_loop cs d = Ok d' →
  rows d' = (λ r, Row (label r) (encode_cells d0 (done_cs ++ cs) (cells r)))
              <$> rows d0.
Proof.
  induction cs as [|c cs IH]; intros done_cs d d' Hnd Hfresh Hd; simpl.
  - intros [= <-]. by rewrite app_nil_r.
  - destruct (get_dummies d c c) as [d1|] eqn:H1; simpl; [|done].
    intros H2. apply get_dummies_Ok in H1.
    assert (done_cs ++ c :: cs = (done_cs ++ [c]) ++ cs) as Happ
      by by rewrite <- app_assoc.
    rewrite Happ in Hnd, Hfresh |- *.
    eapply IH; [done..| |done].
    assert (column d c = column d0 c) as Hcol.
    { apply (column_rows d0 d (encode_cells d0 done_cs)); [done|].
      intros l. apply cell_encode_cells.
      - apply NoDup_app in Hnd as (Hnd & _ & _).
        apply NoDup_app in Hnd as (_ & Hnd & _).
        intros Hc. apply (Hnd c Hc). left.
      - intros c' lv Hc'. apply Hfresh; apply elem_of_app; left;
          apply elem_of_app; [by left|right; left]. }
    rewrite H1, Hd, <- list_fmap_compose. apply list_fmap_ext.
    intros i r _. simpl. unfold encode_cells. rewrite foldl_app. simpl.
    by rewrite Hcol.
Qed.

Lemma setitem_rows d src dst g s s' d' :
  getitem d src = Ok s → svalues s' = g <$> svalues s →
  setitem d dst s' = Ok d' →
  rows d' = (λ r, Row (label r) (map_cell src dst g (cells r))) <$> rows d.
Proof.
  intros Hs Hs' Hd'.
  apply getitem_Ok in Hs as [_ Hs].
  apply setitem_Ok in Hd' as (_ & _ & Hr).
  rewrite Hr, Hs', Hs. unfold column.
  by rewrite <- list_fmap_compose, zip_with_fmap_r, zip_with_diag.
Qed.

Lemma cut_Ok s s' :
  cut s age_edges age_labels = Ok s' → svalues s' = cut_age <$> svalues s.
Proof.
  unfold cut. case_decide; [|done].
  destruct (traverse _ (svalues s)) as [l|] eqn:Hl; simpl; [|done].
  intros [= <-]. simpl.
  apply (traverse_agree _ cut_age) in Hl; [done|].
  intros x y Hxy. unfold cut_age. by rewrite Hxy.
Qed.

Lemma never_married_Ok s s' :
  apply never_married_lambda s = Ok s' →
  svalues s' = never_married_value <$> svalues s.
Proof.
  intros H. apply (apply_Ok _ never_married_value) in H as [H _]; [done|].
  unfold never_married_lambda, never_married_value. congruence.
Qed.

(** The rows of the output are the rows of the input, each one rebuilt on
    its own; only the categories come from the whole column. *)
Lemma feature_engineering_rows d out :
  feature_engineering d = Ok out →
  rows out = (λ r, Row (label r) (feature_cells d (cells r))) <$> rows d.
Proof.
  rewrite feature_engineering_unfold.
  destruct (encode_loop encoded_columns d) as [d7|] eqn:H7; simpl; [|done].
  destruct (getitem d7 "age") as [age|] eqn:Hage; simpl; [|done].
  destruct (cut age _ _) as [age_bins|] eqn:Hbins; simpl; [|done].
  destruct (setitem d7 _ age_bins) as [d8|] eqn:H8; simpl; [|done].
  destruct (getitem d8 "marital_status") as [ms|] eqn:Hms; simpl; [|done].
  destruct (apply _ ms) as [nm|] eqn:Hnm; simpl; [|done].
  destruct (setitem d8 _ nm) as [d9|] eqn:H9; simpl; [|done].
  intros (_ & _ & Hout)%drop_columns_Ok.
  apply (encode_loop_Ok d encoded_columns [] d d7) in H7.
  - apply cut_Ok in Hbins. apply never_married_Ok in Hnm.
    pose proof (setitem_rows _ _ _ _ _ _ _ Hage Hbins H8) as R8.
    pose proof (setitem_rows _ _ _ _ _ _ _ Hms Hnm H9) as R9.
    rewrite Hout, R9, R8, H7, <- !list_fmap_compose.
    by apply list_fmap_ext.
  - apply (bool_decide_unpack _). by vm_compute.
  - intros c c' lv Hc Hc'. apply dummy_name_fresh; [done|].
    apply elem_of_app. by left.
  - rewrite <- (list_fmap_id (rows d)) at 1.
    apply list_fmap_ext. by intros i [] _.
Qed.

Lemma cell_feature_cells d (l : list (string * value)) :
  cell "age_bins" (feature_cells d l)
  = Some (cut_age (default NA (cell "age" l)))
  ∧ cell "never_married" (feature_cells d l)
    = Some (never_married_value (default NA (cell "marital_status" l))).
Proof.
  assert (∀ k, k ∈ ["age"; "marital_status"] →
            cell k (encode_cells d encoded_columns l) = cell k l) as Hk.
  { intros k Hk. apply cell_encode_cells.
    - revert Hk. rewrite !elem_of_cons, elem_of_nil.
      intros [->|[->|[]]]; apply (bool_decide_unpack _); by vm_compute.
    - intros c lv Hc. apply dummy_name_fresh; [done|].
      apply elem_of_app. right. revert Hk. rewrite !elem_of_cons.
      rewrite elem_of_nil. intros [->|[->|[]]]; auto. }
  unfold feature_cells, map_cell.
  rewrite !assoc_filter_notin by (apply (bool_decide_unpack _); by vm_compute).
  split.
  - rewrite assoc_set_ne by done. rewrite assoc_set_eq.
    rewrite Hk; [done|]. left.
  - rewrite assoc_set_eq. rewrite assoc_set_ne by done.
    rewrite Hk; [done|]. right. left.
Qed.

(** ** Age bins *)

Lemma cut_age_bucket (age : Z) :
  cut_age (VInt age) =
    if decide (17 ≤ age ≤ 29)%Z then VInt 1
    else if decide (30 ≤ age ≤ 39)%Z then VInt 2
    else if decide (40 ≤ age ≤ 49)%Z then VInt 3
    else if decide (50 ≤ age ≤ 59)%Z then VInt 4
    else if decide (60 ≤ age ≤ 100)%Z then VInt 5
    else NA.
Proof.
  unfold cut_age, cut_value, age_edges, age_labels.
  cbn [searchsorted_left length].
  destruct (Z.ltb_spec 16 age); [|repeat case_decide; try lia; done].
  destruct (Z.ltb_spec 29 age); [|repeat case_decide; try lia; done].
  destruct (Z.ltb_spec 39 age); [|repeat case_decide; try lia; done].
  destruct (Z.ltb_spec 49 age); [|repeat case_decide; try lia; done].
  destruct (Z.ltb_spec 59 age); [|repeat case_decide; try lia; done].
  destruct (Z.ltb_spec 100 age); repeat case_decide; try lia; done.
Qed.

(** C2, as the code has it: six edges, 16, 29, 39, 49, 59 and 100, bound
    five intervals that are open on the left and closed on the right.  An
    age of 17 to 29 goes to bucket 1, 30 to 39 to 2, 40 to 49 to 3, 50 to
    59 to 4, 60 to 100 to 5, and any other age, 16 included, is left
    unmapped. *)
Theorem feature_engineering_age_bins d out :
  feature_engineering d = Ok out →
  length age_edges = 6 ∧ length age_labels = 5
  ∧ Forall2 (λ ri ro,
       label ro = label ri
       ∧ ∀ age : Z, cell "age" (cells ri) = Some (VInt age) →
           cell "age_bins" (cells ro) = Some (
             if decide (17 ≤ age ≤ 29)%Z then VInt 1
             else if decide (30 ≤ age ≤ 39)%Z then VInt 2
             else if decide (40 ≤ age ≤ 49)%Z then VInt 3
             else if decide (50 ≤ age ≤ 59)%Z then VInt 4
             else if decide (60 ≤ age ≤ 100)%Z then VInt 5
             else NA))
      (rows d) (rows out).
Proof.
  intros Hout. split; [done|]. split; [done|].
  rewrite (feature_engineering_rows d out Hout).
  apply Forall2_fmap_r, Forall_Forall2_diag, Forall_forall.
  intros ri _. split; [done|]. intros age Hage. simpl.
  destruct (cell_feature_cells d (cells ri)) as [-> _].
  by rewrite Hage, <- cut_age_bucket.
Qed.

Lemma feature_engineering_age_bins_witness :
  Forall2 (λ ri ro,
     label ro = label ri
     ∧ ∀ age : Z, cell "age" (cells ri) = Some (VInt age) →
         cell "age_bins" (cells ro) = Some (
           if decide (17 ≤ age ≤ 29)%Z then VInt 1
           else if decide (30 ≤ age ≤ 39)%Z then VInt 2
           else if decide (40 ≤ age ≤ 49)%Z then VInt 3
           else if decide (50 ≤ age ≤ 59)%Z then VInt 4
           else if decide (60 ≤ age ≤ 100)%Z then VInt 5
           else NA))
    (rows census_clean)
    (rows (match feature_engineering census_clean with
           | Ok out => out
           | Raise _ => census_clean
           end)).
Proof.
  apply (feature_engineering_age_bins census_clean).
  vm_compute. reflexivity.
Defined.

(** The boundary ages. *)
Example age_bins_boundaries :
  cut_value age_edges age_labels <$>
    [VInt 15; VInt 16; VInt 17; VInt 29; VInt 30; VInt 59; VInt 60; VInt 100;
     VInt 101]
  = [Ok NA; Ok NA; Ok (VInt 1); Ok (VInt 1); Ok (VInt 2); Ok (VInt 4);
     Ok (VInt 5); Ok (VInt 5); Ok NA].
Proof. reflexivity. Qed.

(** C2, as stated, fails at the age of 16: the first row of the cleaned
    sample has that age and no bucket, where the claim puts it in
    bucket 1. *)
Lemma age_16_is_unmapped :
  cut_value age_edges age_labels (VInt 16) = Ok NA
  ∧ ∃ out ri ro,
      feature_engineering census_clean = Ok out
      ∧ rows census_clean !! 0 = Some ri ∧ rows out !! 0 = Some ro
      ∧ cell "age" (cells ri) = Some (VInt 16)
      ∧ cell "age_bins" (cells ro) = Some NA
      ∧ cell "age_bins" (cells ro) ≠ Some (VInt 1).
Proof.
  split; [done|]. do 3 eexists.
  split; [vm_compute; reflexivity|].
  split; [vm_compute; reflexivity|].
  split; [vm_compute; reflexivity|].
  split; [by vm_compute|]. split; [by vm_compute|]. by vm_compute.
Qed.

(** ** The label column *)

(** C6: in every row of the Feature Builder's output, [never_married] is 1
    when the marital status of the row is exactly ['Never-married'], and 0
    when it is anything else. *)
Theorem feature_engineering_never_married d out :
  feature_engineering d = Ok out →
  Forall2 (λ ri ro,
     label ro = label ri
     ∧ (cell "marital_status" (cells ri) = Some (VStr "Never-married") →
        cell "never_married" (cells ro) = Some (VInt 1))
     ∧ (cell "marital_status" (cells ri) ≠ Some (VStr "Never-married") →
        cell "never_married" (cells ro) = Some (VInt 0)))
    (rows d) (rows out).
Proof.
  intros Hout. rewrite (feature_engineering_rows d out Hout).
  apply Forall2_fmap_r, Forall_Forall2_diag, Forall_forall.
  intros ri _. split; [done|]. simpl.
  destruct (cell_feature_cells d (cells ri)) as [_ ->].
  unfold never_married_value. split.
  - intros ->. done.
  - intros Hne. rewrite decide_False; [done|].
    destruct (cell "marital_status" (cells ri)); simpl; congruence.
Qed.

Lemma feature_engineering_never_married_witness :
  Forall2 (λ ri ro,
     label ro = label ri
     ∧ (cell "marital_status" (cells ri) = Some (VStr "Never-married") →
        cell "never_married" (cells ro) = Some (VInt 1))
     ∧ (cell "marital_status" (cells ri) ≠ Some (VStr "Never-married") →
        cell "never_married" (cells ro) = Some (VInt 0)))
    (rows census_clean)
    (rows (match feature_engineering census_clean with
           | Ok out => out
           | Raise _ => census_clean
           end)).
Proof.
  apply (feature_engineering_never_married census_clean).
  vm_compute. reflexivity.
Defined.

(** ** One-hot expansion *)

Lemma sublist_filter_mono {A} (P : A → Prop) `{∀ x, Decision (P x)} l1 l2 :
  l1 `sublist_of` l2 → filter P l1 `sublist_of` filter P l2.
Proof.
  induction 1 as [|x l1 l2 _ IH|x l1 l2 _ IH]; [done|..];
    rewrite ?filter_cons; case_decide;
    auto using sublist_skip, sublist_cons.
Qed.

Lemma filter_all {A} (P : A → Prop) `{∀ x, Decision (P x)} l :
  Forall P l → filter P l = l.
Proof.
  induction 1 as [|x l Hx _ IH]; [done|].
  rewrite filter_cons, decide_True by done. by f_equal.
Qed.

Section blocks.
Implicit Types (blk l : list (string * value)).

Lemma sublist_dummies blk prefix c L l :
  blk `sublist_of` l → Forall (λ p, p.1 ≠ c) blk →
  blk `sublist_of` dummies prefix c L l.
Proof.
  intros Hsub Hblk. unfold dummies. apply sublist_inserts_r.
  rewrite <- (filter_all (λ p, p.1 ≠ c) blk) by done.
  by apply sublist_filter_mono.
Qed.

Lemma sublist_encode_cells d cs blk l :
  blk `sublist_of` l → Forall (λ p, p.1 ∉ cs) blk →
  blk `sublist_of` encode_cells d cs l.
Proof.
  unfold encode_cells. revert l.
  induction cs as [|c cs IH]; intros l Hsub Hblk; simpl; [done|].
  apply IH.
  - apply sublist_dummies; [done|].
    eapply Forall_impl; [done|]. intros p Hp Heq. apply Hp.
    rewrite Heq. left.
  - eapply Forall_impl; [done|]. intros p Hp Hin. apply Hp. by right.
Qed.

Lemma sublist_map_cell blk src dst g l :
  blk `sublist_of` l → Forall (λ p, p.1 ≠ dst) blk →
  blk `sublist_of` map_cell src dst g l.
Proof.
  intros Hsub Hblk. unfold map_cell, assoc_set. case_decide.
  - set (f := λ p : string * value,
                if decide (p.1 = dst)
                then (dst, g (default NA (cell src l))) else p).
    assert (f <$> blk = blk) as <-.
    { clear Hsub. induction Hblk as [|p blk Hp _ IH]; [done|].
      rewrite fmap_cons, IH. f_equal. unfold f. by rewrite decide_False. }
    by apply fmap_sublist.
  - by apply sublist_inserts_r.
Qed.
End blocks.

Lemma encode_cells_app d cs1 cs2 (l : list (string * value)) :
  encode_cells d (cs1 ++ cs2) l = encode_cells d cs2 (encode_cells d cs1 l).
Proof. unfold encode_cells. by rewrite foldl_app. Qed.

(** The indicator cells of column [c] are in the row the task returns, in
    their order, but for the redundant ones. *)
Lemma output_indicators_sublist d c ri :
  c ∈ encoded_columns →
  output_indicators d c ri `sublist_of` feature_cells d (cells ri).
Proof.
  intros Hc. unfold output_indicators, feature_cells.
  apply sublist_filter_mono.
  assert (∀ L v, Forall (λ p, p.1 ∉ fixed_labels) (indicators c L v)) as Hnames.
  { intros L v. apply Forall_forall. intros p Hp.
    assert (p.1 ∈ (indicators c L v).*1) as Hp1
      by (apply list_elem_of_fmap; eauto).
    rewrite indicators_names in Hp1.
    apply list_elem_of_fmap in Hp1 as (lv & -> & _).
    intros Hin. by apply (dummy_name_fresh c lv _ Hc Hin). }
  assert (∀ k L v, k ∈ fixed_labels →
            Forall (λ p, p.1 ≠ k) (indicators c L v)) as Hne.
  { intros k L v Hk. eapply Forall_impl; [apply Hnames|].
    intros p Hp Heq. apply Hp. by rewrite Heq. }
  do 2 (apply sublist_map_cell;
        [|apply Hne, (bool_decide_unpack _); by vm_compute]).
  apply list_elem_of_split in Hc as (cs1 & cs2 & Hcs).
  rewrite Hcs, encode_cells_app. simpl.
  change (encode_cells d (c :: cs2) ?l)
    with (encode_cells d cs2 (dummies c c (levels_of (column d c)) l)).
  apply sublist_encode_cells.
  - unfold dummies at 1. apply sublist_inserts_l.
    rewrite cell_encode_cells; [done| |].
    + assert (NoDup encoded_columns) as Hnd
        by (apply (bool_decide_unpack _); by vm_compute).
      rewrite Hcs in Hnd. apply NoDup_app in Hnd as (_ & Hnd & _).
      intros Hin. apply (Hnd c Hin). left.
    + intros c' lv Hc'. apply dummy_name_fresh.
      * rewrite Hcs. apply elem_of_app. by left.
      * apply elem_of_app. left. rewrite Hcs. apply elem_of_app. right. left.
  - eapply Forall_impl; [apply Hnames|]. intros p Hp Hin. apply Hp.
    apply elem_of_app. left. rewrite Hcs. apply elem_of_app. right. by right.
Qed.

Lemma levels_of_elem l v : v ∈ levels_of l ↔ v ∈ l ∧ v ≠ NA.
Proof.
  unfold levels_of. rewrite merge_sort_Permutation, elem_of_remove_dups.
  rewrite list_elem_of_filter. destruct v; simpl; split; intros [? ?]; done.
Qed.

Lemma levels_of_NoDup l : NoDup (levels_of l).
Proof.
  unfold levels_of. rewrite merge_sort_Permutation. apply NoDup_remove_dups.
Qed.

Lemma indicators_bit c L v p :
  p ∈ indicators c L v → p.2 = VInt 0 ∨ p.2 = VInt 1.
Proof.
  unfold indicators. intros (lv & -> & _)%list_elem_of_fmap. simpl.
  case_decide; auto.
Qed.

Lemma indicators_hot c L v :
  v ∈ L → (dummy_name c v, VInt 1) ∈ indicators c L v.
Proof.
  intros Hv. unfold indicators. apply list_elem_of_fmap. exists v.
  by rewrite decide_True.
Qed.

(** The cells of an expansion that pass a test on their labels hold one 1
    when the test keeps the cell of the value of the row, and none when it
    does not or when the value is no category. *)
Lemma indicator_sum_filter (Q : string → Prop) `{∀ k, Decision (Q k)} c L v :
  NoDup L →
  indicator_sum (filter (λ p, Q p.1) (indicators c L v))
  = if decide (v ∈ L ∧ Q (dummy_name c v)) then 1%Z else 0%Z.
Proof.
  induction 1 as [|x L Hx _ IH].
  - destruct (decide (v ∈ [] ∧ Q (dummy_name c v))) as [[Hv _]|_]; [|done].
    by apply elem_of_nil in Hv.
  - change (indicators c (x :: L) v)
      with ((dummy_name c x, VInt (if decide (v = x) then 1 else 0))
              :: indicators c L v).
    rewrite filter_cons. cbn [fst].
    assert (∀ b, indicator_sum
                   ((dummy_name c x, VInt b)
                      :: filter (λ p, Q p.1) (indicators c L v))
                 = (b + indicator_sum
                          (filter (λ p, Q p.1) (indicators c L v)))%Z)
      as Hcons by done.
    assert (v ∈ x :: L ↔ v = x ∨ v ∈ L) as Hin by apply elem_of_cons.
    destruct (decide (Q (dummy_name c x))) as [HQ|HQ];
      rewrite ?Hcons, IH;
      destruct (decide (v = x)) as [->|Hvx];
      repeat case_decide; try done; exfalso; tauto.
Qed.

Lemma indicator_sum_redundant c L v :
  NoDup L →
  indicator_sum (filter (λ p, p.1 ∉ redundant_columns) (indicators c L v))
  = if decide (v ∈ L ∧ dummy_name c v ∉ redundant_columns)
    then 1%Z else 0%Z.
Proof.
  intros Hnd.
  exact (indicator_sum_filter (λ k, k ∉ redundant_columns) c L v Hnd).
Qed.

Lemma redundant_dummy_name c v :
  c ∈ encoded_columns →
  dummy_name c v ∈ redundant_columns
  ↔ c = "income_bracket" ∧ str v = "<=50K".
Proof.
  unfold encoded_columns, redundant_columns.
  rewrite !elem_of_cons, !elem_of_nil.
  intros [->|[->|[->|[->|[->|[->|[->|[]]]]]]]];
    cbv [dummy_name String.append]; split;
    try (intros [H|[H|[H|[]]]]; discriminate H);
    try (intros [H _]; discriminate H).
  - intros [H|[H|[H|[]]]]; try discriminate H. by injection H.
  - intros [_ ->]. by left.
Qed.

(** ** The cells of an output row under the labels of an expansion *)

Lemma filter_swap {A} (P Q : A → Prop) `{∀ x, Decision (P x)}
    `{∀ x, Decision (Q x)} (l : list A) :
  filter P (filter Q l) = filter Q (filter P l).
Proof.
  induction l as [|x l IH]; [done|].
  rewrite !filter_cons.
  destruct (decide (Q x)), (decide (P x)); rewrite ?filter_cons;
    repeat case_decide; try done; by f_equal.
Qed.

(** No label the Feature Builder reads or writes by name starts with the
    prefix of an expansion. *)
Lemma prefix_fixed_labels c k :
  c ∈ encoded_columns → k ∈ fixed_labels → String.prefix (c +:+ "_") k = false.
Proof.
  intros Hc Hk.
  assert (Forall (λ c, Forall (λ k, String.prefix (c +:+ "_") k = false)
                         fixed_labels) encoded_columns) as H
    by (apply (bool_decide_unpack _); by vm_compute).
  rewrite Forall_forall in H. specialize (H c Hc).
  rewrite Forall_forall in H. by apply H.
Qed.

(** The label of an indicator starts with the prefix of its own expansion
    and of no other. *)
Lemma prefix_dummy_name c c' lv :
  c ∈ encoded_columns → c' ∈ encoded_columns →
  String.prefix (c +:+ "_") (dummy_name c' lv) = bool_decide (c = c').
Proof.
  unfold encoded_columns, dummy_name. rewrite !elem_of_cons, !elem_of_nil.
  generalize (str lv). intros s.
  intros [->|[->|[->|[->|[->|[->|[->|[]]]]]]]]
         [->|[->|[->|[->|[->|[->|[->|[]]]]]]]];
    destruct s; vm_compute; reflexivity.
Qed.

Lemma named_indicators_app c (l1 l2 : list (string * value)) :
  named_indicators c (l1 ++ l2)
  = named_indicators c l1 ++ named_indicators c l2.
Proof. unfold named_indicators. apply filter_app. Qed.

Lemma named_indicators_ne c c' (l : list (string * value)) :
  String.prefix (c +:+ "_") c' = false →
  named_indicators c (filter (λ p, p.1 ≠ c') l) = named_indicators c l.
Proof.
  intros Hc'. unfold named_indicators.
  induction l as [|[k v] l IH]; [done|].
  rewrite !filter_cons. simpl.
  destruct (decide (k ≠ c')) as [Hk|Hk].
  - rewrite filter_cons. simpl. case_decide; by rewrite IH.
  - apply dec_stable in Hk as ->. rewrite decide_False by congruence. done.
Qed.

Lemma named_indicators_set c k x (l : list (string * value)) :
  String.prefix (c +:+ "_") k = false →
  named_indicators c (set_cell k x l) = named_indicators c l.
Proof.
  intros Hk. unfold assoc_set. case_decide as Hin.
  - clear Hin. unfold named_indicators. induction l as [|[k' v] l IH]; [done|].
    rewrite fmap_cons, !filter_cons. simpl.
    destruct (decide (k' = k)) as [->|Hk']; simpl.
    + rewrite !decide_False by congruence. done.
    + case_decide; by rewrite IH.
  - rewrite named_indicators_app. unfold named_indicators at 2.
    rewrite filter_cons, filter_nil. simpl.
    rewrite decide_False by congruence. by rewrite app_nil_r.
Qed.

Lemma named_indicators_block c c' L v :
  c ∈ encoded_columns → c' ∈ encoded_columns →
  named_indicators c (indicators c' L v)
  = if decide (c = c') then indicators c' L v else [].
Proof.
  intros Hc Hc'. unfold named_indicators, indicators.
  induction L as [|lv L IH]; [by case_decide|].
  rewrite fmap_cons, filter_cons. simpl.
  rewrite (prefix_dummy_name c c' lv Hc Hc'), IH.
  destruct (decide (c = c')) as [->|Hne].
  - rewrite bool_decide_eq_true_2 by done. by rewrite decide_True.
  - rewrite bool_decide_eq_false_2 by done. by rewrite decide_False.
Qed.

Lemma named_indicators_dummies c c' L (l : list (string * value)) :
  c ∈ encoded_columns → c' ∈ encoded_columns →
  named_indicators c (dummies c' c' L l)
  = named_indicators c l
    ++ (if decide (c = c')
        then indicators c' L (default NA (cell c' l)) else []).
Proof.
  intros Hc Hc'. unfold dummies.
  rewrite named_indicators_app, named_indicators_block by done.
  rewrite named_indicators_ne; [done|].
  apply prefix_fixed_labels; [done|]. apply elem_of_app. by left.
Qed.

Lemma named_indicators_encode d c cs : ∀ l : list (string * value),
  c ∈ encoded_columns → Forall (λ c', c' ∈ encoded_columns) cs → NoDup cs →
  named_indicators c (encode_cells d cs l)
  = named_indicators c l
    ++ (if decide (c ∈ cs)
        then indicators c (levels_of (column d c)) (default NA (cell c l))
        else []).
Proof.
  induction cs as [|c' cs IH]; intros l Hc Hcs Hnd.
  - rewrite decide_False by apply not_elem_of_nil. by rewrite app_nil_r.
  - apply Forall_cons in Hcs as [Hc' Hcs]. apply NoDup_cons in Hnd as [Hn Hnd].
    change (encode_cells d (c' :: cs) l)
      with (encode_cells d cs (dummies c' c' (levels_of (column d c')) l)).
    rewrite IH, named_indicators_dummies by done.
    destruct (decide (c = c')) as [<-|Hne].
    + rewrite (decide_False (P := c ∈ cs)) by done.
      rewrite (decide_True (P := c ∈ c :: cs)) by left.
      by rewrite app_nil_r.
    + rewrite app_nil_r. f_equal.
      destruct (decide (c ∈ cs)) as [Hin|Hout].
      * rewrite (decide_True (P := c ∈ c' :: cs)) by (by right).
        rewrite cell_dummies; [done..|].
        intros lv. apply dummy_name_fresh; [done|].
        apply elem_of_app. by left.
      * rewrite (decide_False (P := c ∈ c' :: cs)); [done|].
        by intros [?|?]%elem_of_cons.
Qed.

(** The cells of the output row whose label starts with [c_]: those the
    input row had under such a label, then the indicators of the expansion
    of [c] that the task leaves. *)
Lemma named_indicators_feature_cells d c (l : list (string * value)) :
  c ∈ encoded_columns →
  named_indicators c (feature_cells d l)
  = filter (λ p, p.1 ∉ redundant_columns) (named_indicators c l)
    ++ filter (λ p, p.1 ∉ redundant_columns)
         (indicators c (levels_of (column d c)) (default NA (cell c l))).
Proof.
  intros Hc. unfold feature_cells, map_cell.
  unfold named_indicators at 1. rewrite filter_swap.
  fold (named_indicators c
          (set_cell "never_married"
             (never_married_value
                (default NA
                   (cell "marital_status"
                      (set_cell "age_bins"
                         (cut_age
                            (default NA
                               (cell "age" (encode_cells d encoded_columns l))))
                         (encode_cells d encoded_columns l)))))
             (set_cell "age_bins"
                (cut_age
                   (default NA (cell "age" (encode_cells d encoded_columns l))))
                (encode_cells d encoded_columns l)))).
  rewrite !named_indicators_set
    by (apply prefix_fixed_labels; [done|];
        apply (bool_decide_unpack _); by vm_compute).
  rewrite named_indicators_encode;
    [|done|by apply Forall_forall|apply (bool_decide_unpack _); by vm_compute].
  rewrite decide_True by done. apply filter_app.
Qed.

Lemma feature_cells_not_redundant d (l : list (string * value)) p :
  p ∈ feature_cells d l → p.1 ∉ redundant_columns.
Proof. by intros [? _]%list_elem_of_filter. Qed.

(** C7, as the code has it.  For each of the seven expanded columns and each
    row, the indicator cells of the column that the task leaves in the row
    hold 0 or 1 and are found in the output row in their order.  Only the
    expansion of [income_bracket] loses a cell, the redundant
    [income_bracket_<=50K], and no cell of the output row has that label.
    The cell named for the value of the row holds 1, so the cells left sum
    to 1, but for a row whose value is missing, which has no category, and
    for a row whose income bracket is ['<=50K'], whose cell is dropped:
    these sum to 0.  The cells left are the cells the output row has under
    a label that starts with the prefix of the column, after those the
    input row had under such a label, if any; with none of these the sum is
    that of the cells of the output row under the prefix. *)
Theorem feature_engineering_one_hot d out c :
  feature_engineering d = Ok out → c ∈ encoded_columns →
  Forall2 (λ ri ro,
     let v := default NA (cell c (cells ri)) in
     let L := levels_of (column d c) in
     label ro = label ri
     ∧ output_indicators d c ri `sublist_of` cells ro
     ∧ (∀ p, p ∈ output_indicators d c ri → p.2 = VInt 0 ∨ p.2 = VInt 1)
     ∧ (c ≠ "income_bracket" → output_indicators d c ri = indicators c L v)
     ∧ (v ≠ NA → (dummy_name c v, VInt 1) ∈ indicators c L v)
     ∧ indicator_sum (output_indicators d c ri)
       = (if decide (v = NA ∨ (c = "income_bracket" ∧ str v = "<=50K"))
          then 0%Z else 1%Z)
     ∧ (∀ p, p ∈ cells ro → p.1 ∉ redundant_columns)
     ∧ cell "income_bracket_<=50K" (cells ro) = None
     ∧ named_indicators c (cells ro)
       = filter (λ p, p.1 ∉ redundant_columns) (named_indicators c (cells ri))
         ++ output_indicators d c ri
     ∧ (named_indicators c (cells ri) = [] →
        indicator_sum (named_indicators c (cells ro))
        = if decide (v = NA ∨ (c = "income_bracket" ∧ str v = "<=50K"))
          then 0%Z else 1%Z))
    (rows d) (rows out).
Proof.
  intros Hout Hc. rewrite (feature_engineering_rows d out Hout).
  apply Forall2_fmap_r, Forall_Forall2_diag, Forall_forall.
  intros ri Hri. simpl.
  set (v := default NA (cell c (cells ri))).
  set (L := levels_of (column d c)).
  assert (v ≠ NA → v ∈ L) as HvL.
  { intros Hv. apply levels_of_elem. split; [|done].
    unfold column. apply list_elem_of_fmap. by exists ri. }
  assert (indicator_sum (output_indicators d c ri)
          = if decide (v = NA ∨ (c = "income_bracket" ∧ str v = "<=50K"))
            then 0%Z else 1%Z) as Hsum.
  { unfold output_indicators. fold v L.
    rewrite indicator_sum_redundant by apply levels_of_NoDup.
    assert (v ∈ L → v ≠ NA) as HLv by (by intros [_ ?]%levels_of_elem).
    pose proof (redundant_dummy_name c v Hc) as Hred.
    repeat case_decide; try done; exfalso; tauto. }
  assert (named_indicators c (feature_cells d (cells ri))
          = filter (λ p, p.1 ∉ redundant_columns)
              (named_indicators c (cells ri))
            ++ output_indicators d c ri) as Hnamed
    by (by apply named_indicators_feature_cells).
  split; [done|]. split; [by apply output_indicators_sublist|].
  split; [|split; [|split; [|split; [|split; [|split; [|split]]]]]].
  - intros p [_ Hp]%list_elem_of_filter. by apply indicators_bit in Hp.
  - intros Hne. unfold output_indicators. apply filter_all, Forall_forall.
    intros p Hp.
    assert (p.1 ∈ (indicators c L v).*1) as Hp1
      by (apply list_elem_of_fmap; eauto).
    rewrite indicators_names in Hp1.
    apply list_elem_of_fmap in Hp1 as (lv & -> & _).
    rewrite redundant_dummy_name by done. by intros [? _].
  - intros Hv. by apply indicators_hot, HvL.
  - done.
  - intros p. apply feature_cells_not_redundant.
  - apply assoc_None. intros (p & Hp1 & Hp)%list_elem_of_fmap.
    apply feature_cells_not_redundant in Hp. apply Hp.
    rewrite <- Hp1. left.
  - done.
  - intros Hnone. by rewrite Hnamed, Hnone.
Qed.

Lemma feature_engineering_one_hot_witness :
  Forall2 (λ ri ro,
     let v := default NA (cell "workclass" (cells ri)) in
     let L := levels_of (column census_clean "workclass") in
     label ro = label ri
     ∧ output_indicators census_clean "workclass" ri `sublist_of` cells ro
     ∧ (∀ p, p ∈ output_indicators census_clean "workclass" ri →
             p.2 = VInt 0 ∨ p.2 = VInt 1)
     ∧ ("workclass" ≠ "income_bracket" →
        output_indicators census_clean "workclass" ri
        = indicators "workclass" L v)
     ∧ (v ≠ NA → (dummy_name "workclass" v, VInt 1)
                   ∈ indicators "workclass" L v)
     ∧ indicator_sum (output_indicators census_clean "workclass" ri)
       = (if decide (v = NA ∨ ("workclass" = "income_bracket"
                               ∧ str v = "<=50K"))
          then 0%Z else 1%Z)
     ∧ (∀ p, p ∈ cells ro → p.1 ∉ redundant_columns)
     ∧ cell "income_bracket_<=50K" (cells ro) = None
     ∧ named_indicators "workclass" (cells ro)
       = filter (λ p, p.1 ∉ redundant_columns)
           (named_indicators "workclass" (cells ri))
         ++ output_indicators census_clean "workclass" ri
     ∧ (named_indicators "workclass" (cells ri) = [] →
        indicator_sum (named_indicators "workclass" (cells ro))
        = if decide (v = NA ∨ ("workclass" = "income_bracket"
                               ∧ str v = "<=50K"))
          then 0%Z else 1%Z))
    (rows census_clean)
    (rows (match feature_engineering census_clean with
           | Ok out => out
           | Raise _ => census_clean
           end)).
Proof.
  apply (feature_engineering_one_hot census_clean).
  - vm_compute. reflexivity.
  - apply (bool_decide_unpack _). by vm_compute.
Defined.

(** C7, as stated, fails: the first row of the cleaned sample has the income
    bracket ['<=50K'], and the only indicator of [income_bracket] the output
    has for it holds 0. *)
Lemma income_bracket_indicators_sum_to_zero :
  ∃ out ri ro,
    feature_engineering census_clean = Ok out
    ∧ rows census_clean !! 0 = Some ri ∧ rows out !! 0 = Some ro
    ∧ cell "income_bracket" (cells ri) = Some (VStr "<=50K")
    ∧ named_indicators "income_bracket" (cells ro)
      = [("income_bracket_>50K", VInt 0)]
    ∧ indicator_sum (named_indicators "income_bracket" (cells ro)) ≠ 1%Z.
Proof.
  do 3 eexists.
  split; [vm_compute; reflexivity|].
  split; [vm_compute; reflexivity|].
  split; [vm_compute; reflexivity|].
  split; [by vm_compute|]. split; by vm_compute.
Qed.

(** ** The split *)

Lemma stateless_lift {S A} (x : result A) : stateless (S := S) (lift x).
Proof. by exists x. Qed.

Lemma stateless_mret {S A} (a : A) : stateless (S := S) (mret a).
Proof. by exists (Ok a). Qed.

Lemma stateless_bind {S A B} (m : ST S A) (k : A → ST S B) :
  stateless m → (∀ a, stateless (k a)) → stateless (m ≫= k).
Proof.
  intros [[a|e] Hm] Hk.
  - destruct (Hk a) as [res Hres]. exists res. intros σ.
    by rewrite ST_bind_run, Hm, Hres.
  - exists (Raise e). intros σ. by rewrite ST_bind_run, Hm.
Qed.

Lemma iloc_omap {A} (a : list A) idx l :
  iloc a idx = Ok l → l = omap (a !!.) idx ∧ length l = length idx.
Proof.
  intros H%traverse_Ok.
  induction H as [|i x idx l Hi _ [IH1 IH2]]; [done|].
  destruct (a !! i) as [y|] eqn:Hy; [|done]. injection Hi as ->.
  simpl. rewrite Hy. simpl. split; [by f_equal|by f_equal].
Qed.

Lemma omap_lookup_S {A} (x : A) (a : list A) (l : list nat) :
  omap ((x :: a) !!.) (S <$> l) = omap (a !!.) l.
Proof.
  induction l as [|i l IH]; [done|].
  rewrite fmap_cons. cbn [omap list_omap]. rewrite <- IH. done.
Qed.

Lemma omap_lookup_seq {A} (a : list A) : omap (a !!.) (seq 0 (length a)) = a.
Proof.
  induction a as [|x a IH]; [done|].
  simpl. f_equal. by rewrite <- fmap_S_seq, omap_lookup_S.
Qed.

(** [ceil(0.2 * n)] is a fifth of [n], rounded up. *)
Lemma n_test_fifth (n : nat) :
  Z.to_nat (Qceiling (0.2 * inject_Z (Z.of_nat n))%Q) = (n + 4) `div` 5.
Proof.
  unfold Qceiling, Qfloor, Qopp, Qmult, inject_Z.
  cbn [Qnum Qden]. change (Z.pos (10 * 1)) with 10%Z.
  apply Nat2Z.inj. rewrite Nat2Z.inj_div, Nat2Z.inj_add.
  set (k := Z.of_nat n). assert (0 ≤ k)%Z by lia.
  change (Z.of_nat 4) with 4%Z. change (Z.of_nat 5) with 5%Z.
  pose proof (Z.div_mod (- (2 * k)) 10 ltac:(lia)).
  pose proof (Z.mod_pos_bound (- (2 * k)) 10 ltac:(lia)).
  pose proof (Z.div_mod (k + 4) 5 ltac:(lia)).
  pose proof (Z.mod_pos_bound (k + 4) 5 ltac:(lia)).
  rewrite Z2Nat.id by lia. lia.
Qed.

Section split_properties.
Context {rng : Type}.
Variable RandomState : Z → rng.
Variable permutation : rng → nat → list nat * rng.

Lemma stateless_seeded seed n :
  stateless (draw_permutation RandomState permutation (Some seed) n).
Proof. by eexists. Qed.

Lemma stateless_train_test_split X y test_size seed :
  stateless (train_test_split RandomState permutation X y test_size
               (Some seed)).
Proof.
  unfold train_test_split.
  destruct (decide (_ ≠ _)); [apply stateless_lift|].
  destruct (decide (_ = 0)); [apply stateless_lift|].
  repeat (apply stateless_bind;
          [first [apply stateless_seeded | apply stateless_lift]|intros ?]).
  apply stateless_mret.
Qed.

Lemma stateless_split_data df :
  stateless (split_data RandomState permutation df).
Proof.
  unfold split_data.
  repeat (apply stateless_bind; [apply stateless_lift|intros ?]).
  apply stateless_train_test_split.
Qed.

(** The two subsets: when the generator returns a permutation of the
    positions, the validation subset has a fifth of the rows, rounded up,
    the training subset has the others, and each row is in one of them. *)
Lemma train_test_split_partition X y seed g g' X_train X_val y_train y_val :
  let n := length (rows X) in
  (permutation (RandomState seed) n).1 ≡ₚ seq 0 n →
  train_test_split RandomState permutation X y 0.2 (Some seed) g
  = (Ok (X_train, X_val, y_train, y_val), g') →
  length (rows X_val) = (n + 4) `div` 5
  ∧ length (rows X_train) = n - (n + 4) `div` 5
  ∧ rows X_val ++ rows X_train ≡ₚ rows X
  ∧ svalues y_val ++ svalues y_train ≡ₚ svalues y.
Proof.
  intros n Hperm. unfold train_test_split. fold n.
  rewrite n_test_fifth.
  set (n_test := (n + 4) `div` 5).
  set (p := (permutation (RandomState seed) n).1) in *.
  destruct (decide (length (svalues y) ≠ n)) as [|Hy]; [done|].
  destruct (decide (n - n_test = 0)); [done|].
  rewrite ST_bind_run. unfold draw_permutation. fold p.
  assert (length p = n) as Hp by (by rewrite Hperm, length_seq).
  assert (take n_test p ++ take (n - n_test) (drop n_test p) = p) as Hsplit.
  { rewrite (take_ge (drop n_test p)) by (rewrite length_drop; lia).
    apply take_drop. }
  assert (n_test ≤ n) as Hle.
  { unfold n_test. pose proof (Nat.div_mod_eq (n + 4) 5).
    pose proof (Nat.mod_upper_bound (n + 4) 5). lia. }
  rewrite !ST_bind_run. unfold lift at 1.
  destruct (iloc (rows X) (take _ (drop _ p))) as [xt|] eqn:Hxt; [|done].
  rewrite !ST_bind_run. unfold lift at 1.
  destruct (iloc (rows X) (take _ p)) as [xv|] eqn:Hxv; [|done].
  rewrite !ST_bind_run. unfold lift at 1.
  destruct (iloc (svalues y) (take _ (drop _ p))) as [yt|] eqn:Hyt; [|done].
  rewrite !ST_bind_run. unfold lift at 1.
  destruct (iloc (svalues y) (take _ p)) as [yv|] eqn:Hyv; [|done].
  intros [= <- <- <- <- _]. simpl.
  apply iloc_omap in Hxt as [-> Lxt], Hxv as [-> Lxv],
    Hyt as [-> Lyt], Hyv as [-> Lyv].
  split; [rewrite Lxv, length_take; lia|].
  split; [rewrite Lxt, length_take, length_drop; lia|].
  rewrite <- !omap_app, Hsplit, Hperm. split.
  - unfold n. by rewrite omap_lookup_seq.
  - assert (n = length (svalues y)) as ->
      by (destruct (decide (length (svalues y) = n)); [done|contradiction]).
    by rewrite omap_lookup_seq.
Qed.
End split_properties.

(** Five rows: one goes to the validation subset, four to the training
    subset. *)
Example split_data_five_rows :
  (λ r, (label <$> rows r.1.1.1, label <$> rows r.1.1.2))
    <$> match (split_data toy_RandomState toy_permutation five_rows 0%Z).1 with
        | Ok r => Some r
        | Raise _ => None
        end
  = Some ([2; 3; 4; 0]%Z, [1]%Z).
Proof. by vm_compute. Qed.

(** Without a seed the split reads numpy's global generator, and changes
    with it. *)
Example unseeded_split_follows_the_global_generator :
  let y := Ser int64 (column five_rows "never_married") in
  (train_test_split toy_RandomState toy_permutation five_rows y 0.2 None 0%Z).1
  ≠ (train_test_split toy_RandomState toy_permutation five_rows y 0.2 None
       1%Z).1.
Proof. by vm_compute. Qed.

(** ** The experiment set-up *)

(** The bare [except]: the clause names no exception, so the task swallows
    whatever [create_experiment] raises, "already exists" or not, and goes
    on with [set_experiment] in the state the failed call left.  No error of
    the creation aborts the stage. *)
Theorem setup_experiment_swallows_every_error {client : Type}
    (set_tracking_uri : string → ST client unit)
    (create_experiment : string → ST client string)
    (set_experiment : string → ST client unit)
    (σ σ1 σ2 : client) (outcome : result string) :
  set_tracking_uri "http://host.docker.internal:5000" σ = (Ok tt, σ1) →
  create_experiment "census_prediction" σ1 = (outcome, σ2) →
  setup_experiment set_tracking_uri create_experiment set_experiment σ
  = set_experiment "census_prediction" σ2.
Proof.
  intros Huri Hcreate. unfold setup_experiment.
  rewrite ST_bind_run, Huri, ST_bind_run.
  unfold try_except_pass. rewrite Hcreate. by destruct outcome.
Qed.

Lemma setup_experiment_swallows_every_error_witness :
  setup_experiment mlflow_set_tracking_uri mlflow_create_experiment
    mlflow_set_experiment tracking_down_once
  = mlflow_set_experiment "census_prediction"
      (Tracking "http://host.docker.internal:5000" [] None []).
Proof.
  apply (setup_experiment_swallows_every_error _ _ _ tracking_down_once
           (Tracking "http://host.docker.internal:5000" [] None
              [Some (ConnectionError "Max retries exceeded")])
           _ (Raise (ConnectionError "Max retries exceeded")));
    reflexivity.
Defined.

(** C1: the code breaks the claim on a server that is down for one request.
    The creation raises a connection error, which is not "already exists";
    the claim has it propagate and abort the stage, and the code, which
    tries to tolerate the existing experiment and catches too much, swallows
    it: the set-up returns and the experiment is active. *)
Lemma connection_error_is_swallowed :
  (mlflow_create_experiment "census_prediction"
     (Tracking "http://host.docker.internal:5000" [] None
        [Some (ConnectionError "Max retries exceeded")])).1
  = Raise (ConnectionError "Max retries exceeded")
  ∧ (setup_experiment mlflow_set_tracking_uri mlflow_create_experiment
       mlflow_set_experiment tracking_down_once).1 = Ok tt
  ∧ active (setup_experiment mlflow_set_tracking_uri mlflow_create_experiment
              mlflow_set_experiment tracking_down_once).2
    = Some "census_prediction".
Proof. by vm_compute. Qed.

(** An interrupt from the keyboard during the creation is swallowed all the
    same. *)
Example keyboard_interrupt_is_swallowed :
  let σ := Tracking "" [] None [Some KeyboardInterrupt] in
  (mlflow_create_experiment "census_prediction" σ).1 = Raise KeyboardInterrupt
  ∧ (setup_experiment mlflow_set_tracking_uri mlflow_create_experiment
       mlflow_set_experiment σ).1 = Ok tt.
Proof. by vm_compute. Qed.

(** The tolerated case: the experiment is there already. *)
Example already_exists_is_swallowed :
  let σ := Tracking "" ["census_prediction"] None [] in
  (mlflow_create_experiment "census_prediction" σ).1
  = Raise (MlflowException "RESOURCE_ALREADY_EXISTS")
  ∧ (setup_experiment mlflow_set_tracking_uri mlflow_create_experiment
       mlflow_set_experiment σ).1 = Ok tt.
Proof. by vm_compute. Qed.

(** ** The class predictions *)

Lemma digits2_pos_bounds m :
  (2 ^ (Z.pos (digits2_pos m) - 1) ≤ Z.pos m < 2 ^ Z.pos (digits2_pos m))%Z.
Proof.
  induction m as [m IH|m IH|]; simpl digits2_pos.
  - rewrite Pos2Z.inj_succ.
    replace (Z.succ (Z.pos (digits2_pos m)) - 1)%Z
      with (Z.succ (Z.pos (digits2_pos m) - 1)) by lia.
    rewrite !Z.pow_succ_r by lia. lia.
  - rewrite Pos2Z.inj_succ.
    replace (Z.succ (Z.pos (digits2_pos m)) - 1)%Z
      with (Z.succ (Z.pos (digits2_pos m) - 1)) by lia.
    rewrite !Z.pow_succ_r by lia. lia.
  - simpl. lia.
Qed.

Lemma half_spec : Prim2SF 0.5 = S754_finite false 4503599627370496 (-53).
Proof. reflexivity. Qed.

Lemma valid_finite s m e :
  valid_binary (S754_finite s m e) = true →
  (-1074 ≤ e)%Z
  ∧ ((-1074 < e)%Z → (2 ^ 52 ≤ Z.pos m)%Z)
  ∧ (Z.pos m < 2 ^ 53)%Z.
Proof.
  unfold valid_binary, bounded, canonical_mantissa, fexp, SpecFloat.emin, prec, emax.
  intros [Hc _]%andb_true_iff. apply Z.eqb_eq in Hc.
  pose proof (digits2_pos_bounds m) as [Hlo Hhi].
  assert (Z.pos (digits2_pos m) ≤ 53)%Z as Hd by lia.
  split; [lia|]. split.
  - intros He. assert (Z.pos (digits2_pos m) = 53)%Z as Hd53 by lia.
    rewrite Hd53 in Hlo. exact Hlo.
  - eapply Z.lt_le_trans; [exact Hhi|]. apply Z.pow_le_mono_r; lia.
Qed.

Lemma greater_half p : greater p 0.5 = true ↔ above_half p.
Proof.
  unfold greater, above_half, float_value.
  rewrite ltb_spec, half_spec.
  pose proof (Prim2SF_valid p) as Hv.
  unfold SFltb, SFcompare.
  destruct (Prim2SF p) as [s|s| |s m e]; cbv beta iota.
  - split; [done|]. unfold Qlt. simpl. lia.
  - destruct s; split; congruence.
  - split; done.
  - apply valid_finite in Hv as (He & Hm52 & Hm53).
    unfold Qlt. cbn [Qnum Qden].
    assert (0 < 2 ^ (e + 1074))%Z as HP by (apply Z.pow_pos_nonneg; lia).
    destruct s.
    + split; [done|]. intros H. exfalso. nia.
    + destruct (Z.compare_spec (-53) e) as [<-|Hlt|Hgt].
      * change (-53 + 1074)%Z with 1021%Z.
        assert (Z.pos (2 ^ 1074) = 2 ^ 52 * 2 ^ 1021 * 2)%Z as ->
          by (vm_compute; reflexivity).
        assert (0 < 2 ^ 1021)%Z as HK by (vm_compute; reflexivity).
        revert HK. generalize (2 ^ 1021)%Z. intros K HK.
        rewrite Pos.compare_cont_spec.
        change 4503599627370496%positive with (2 ^ 52)%positive.
        destruct (Pos.compare_spec (2 ^ 52) m) as [Heq|Hl|Hg];
          cbn [Pos.switch_Eq].
        -- split; [done|]. subst m. lia.
        -- split; [|done]. intros _.
           assert (2 ^ 52 < Z.pos m)%Z by lia. nia.
        -- split; [done|]. intros H. exfalso.
           assert (Z.pos m < 2 ^ 52)%Z by lia. nia.
      * split; [|done]. intros _.
        assert (2 ^ 1022 ≤ 2 ^ (e + 1074))%Z as HKP
          by (apply Z.pow_le_mono_r; lia).
        assert (Z.pos (2 ^ 1074) = 2 ^ 52 * 2 ^ 1022)%Z as ->
          by (vm_compute; reflexivity).
        assert (0 < 2 ^ 1022)%Z as HK by (vm_compute; reflexivity).
        revert HK HKP HP. generalize (2 ^ 1022)%Z (2 ^ (e + 1074))%Z.
        intros K P HK HKP HP.
        assert (2 ^ 52 ≤ Z.pos m)%Z as Hm by (apply Hm52; lia).
        assert (2 ^ 52 * K ≤ Z.pos m * P)%Z
          by (apply Z.mul_le_mono_nonneg; lia).
        lia.
      * split; [done|]. intros H. exfalso.
        assert (2 ^ (e + 1074) ≤ 2 ^ 1020)%Z as HPK
          by (apply Z.pow_le_mono_r; lia).
        assert (Z.pos (2 ^ 1074) = 2 ^ 53 * 2 ^ 1020 * 2)%Z as Hden
          by (vm_compute; reflexivity).
        rewrite Hden in H. clear Hden.
        assert (0 < 2 ^ 1020)%Z as HK by (vm_compute; reflexivity).
        revert HK HPK HP H. generalize (2 ^ 1020)%Z (2 ^ (e + 1074))%Z.
        intros K P HK HPK HP H.
        assert (Z.pos m * P ≤ Z.pos m * K)%Z
          by (apply Z.mul_le_mono_nonneg_l; lia).
        assert (Z.pos m * K < 2 ^ 53 * K)%Z
          by (apply Z.mul_lt_mono_pos_r; lia).
        lia.
Qed.

(** C9: the class of a prediction is 1 exactly when the predicted
    probability is strictly above one half, and 0 otherwise; a probability
    of exactly 0.5 gives class 0. *)
Theorem y_pred_class_threshold (y_pred : list float) :
  Forall2 (λ p c, (c = 1%Z ↔ above_half p) ∧ (c = 0%Z ↔ ¬ above_half p))
    y_pred (y_pred_class y_pred)
  ∧ y_pred_class [0.5%float] = [0%Z].
Proof.
  split; [|reflexivity].
  unfold y_pred_class, np_where. rewrite <- list_fmap_compose.
  apply Forall2_fmap_r, Forall_Forall2_diag, Forall_forall.
  intros p _. simpl. pose proof (greater_half p) as Hp.
  destruct (greater p 0.5); split; split; try done.
  - intros _. by apply Hp.
  - intros Hn. exfalso. apply Hn. by apply Hp.
  - intros Ha. apply Hp in Ha. done.
  - intros _ Ha. apply Hp in Ha. done.
Qed.

(** Around the threshold: one half, its two neighbours, NaN and the
    infinities. *)
Example y_pred_class_examples :
  y_pred_class [0.5; next_up 0.5; next_down 0.5; nan; infinity;
                neg_infinity; 0; 1]%float
  = [0; 1; 0; 0; 1; 0; 0; 1]%Z.
Proof. reflexivity. Qed.

(** ** Column labels *)

Lemma fmap_fst_filter {V} (P : string → Prop) `{∀ k, Decision (P k)}
    (l : list (string * V)) :
  (filter (λ p, P p.1) l).*1 = filter P l.*1.
Proof.
  induction l as [|[k v] l IH]; [done|].
  rewrite fmap_cons, !filter_cons. simpl.
  destruct (decide (P k)); [rewrite fmap_cons; simpl; f_equal|]; exact IH.
Qed.

Lemma filter_notin_names {V} (cs : list string) (l : list (string * V)) :
  (filter (λ p, p.1 ∉ cs) l).*1 = filter (λ k, k ∉ cs) l.*1.
Proof. exact (fmap_fst_filter (λ k, k ∉ cs) l). Qed.

Lemma filter_ne_names {V} (c : string) (l : list (string * V)) :
  (filter (λ p, p.1 ≠ c) l).*1 = filter (λ k, k ≠ c) l.*1.
Proof. exact (fmap_fst_filter (λ k, k ≠ c) l). Qed.

Lemma assoc_set_add_label {V} c (v : V) (l : list (string * V)) :
  (assoc_set c v l).*1 = add_label c l.*1.
Proof. apply assoc_set_names. Qed.

Lemma dummies_names prefix c L (l : list (string * value)) :
  (dummies prefix c L l).*1 = dummy_names prefix c L l.*1.
Proof.
  unfold dummies, dummy_names.
  by rewrite fmap_app, filter_ne_names, indicators_names.
Qed.

Lemma encode_cells_names d cs (l : list (string * value)) :
  (encode_cells d cs l).*1 = encode_names d cs l.*1.
Proof.
  unfold encode_cells, encode_names. revert l.
  induction cs as [|c cs IH]; intros l; simpl; [done|].
  by rewrite IH, dummies_names.
Qed.

Lemma feature_cells_names d (l : list (string * value)) :
  (feature_cells d l).*1 = feature_names d l.*1.
Proof.
  unfold feature_cells, feature_names, map_cell.
  by rewrite filter_notin_names, !assoc_set_add_label, encode_cells_names.
Qed.

Lemma get_dummies_columns d prefix c d' :
  get_dummies d prefix c = Ok d' →
  c ∈ (columns d).*1
  ∧ (columns d').*1
    = dummy_names prefix c (levels_of (column d c)) (columns d).*1.
Proof.
  unfold get_dummies.
  destruct (getitem d c) as [s|] eqn:Hs; simpl; [|done].
  apply getitem_Ok in Hs as [Hc ->]. intros [= <-]. simpl.
  split; [by apply assoc_Some_names in Hc|].
  unfold dummy_names.
  rewrite fmap_app, filter_ne_names, <- list_fmap_compose. done.
Qed.

(** Where a label of an expanded frame comes from: the input, or a category
    of an expanded column. *)
Lemma elem_of_encode_names d cs ns k :
  k ∈ encode_names d cs ns →
  k ∈ ns ∨ ∃ c lv, c ∈ cs ∧ lv ∈ levels_of (column d c)
                   ∧ k = dummy_name c lv.
Proof.
  unfold encode_names. revert ns.
  induction cs as [|c cs IH]; intros ns; simpl; [by left|].
  intros [Hk|(c' & lv & Hc' & Hlv & ->)]%IH.
  - unfold dummy_names in Hk. apply elem_of_app in Hk as [Hk|Hk].
    + left. by apply list_elem_of_filter in Hk as [_ ?].
    + right. apply list_elem_of_fmap in Hk as (lv & -> & Hlv).
      exists c, lv. split; [left|done].
  - right. exists c', lv. split; [by right|done].
Qed.

Lemma encode_names_keeps d cs ns k :
  k ∈ ns → k ∉ cs → k ∈ encode_names d cs ns.
Proof.
  unfold encode_names. revert ns.
  induction cs as [|c cs IH]; intros ns Hk Hcs; simpl; [done|].
  apply not_elem_of_cons in Hcs as [Hkc Hcs].
  apply IH; [|done]. unfold dummy_names. apply elem_of_app. left.
  by apply list_elem_of_filter.
Qed.

Lemma encode_names_app d cs1 cs2 ns :
  encode_names d (cs1 ++ cs2) ns = encode_names d cs2 (encode_names d cs1 ns).
Proof. unfold encode_names. by rewrite foldl_app. Qed.

(** An expanded column is gone for good. *)
Lemma encode_names_removes d cs ns c :
  c ∈ cs → (∀ c' lv, c' ∈ cs → dummy_name c' lv ≠ c) →
  c ∉ encode_names d cs ns.
Proof.
  intros Hc Hfresh Hin.
  apply list_elem_of_split in Hc as (cs1 & cs2 & ->).
  rewrite encode_names_app in Hin.
  change (encode_names d (c :: cs2) ?n)
    with (encode_names d cs2 (dummy_names c c (levels_of (column d c)) n))
    in Hin.
  apply elem_of_encode_names in Hin as [Hin|(c' & lv & Hc' & _ & Heq)].
  - unfold dummy_names in Hin. apply elem_of_app in Hin as [Hin|Hin].
    + by apply list_elem_of_filter in Hin as [? _].
    + apply list_elem_of_fmap in Hin as (lv & Heq & _).
      eapply Hfresh; [|done]. apply elem_of_app. right. left.
  - eapply Hfresh; [|done]. apply elem_of_app. right. by right.
Qed.

(** The expansion loop, header and rows together. *)
Lemma encode_loop_frame d0 cs : ∀ done_cs d d',
  NoDup (done_cs ++ cs) →
  (∀ c c' lv, c ∈ done_cs ++ cs → c' ∈ done_cs ++ cs → dummy_name c lv ≠ c') →
  rows d = (λ r, Row (label r) (encode_cells d0 done_cs (cells r))) <$> rows d0 →
  (columns d).*1 = encode_names d0 done_cs (columns d0).*1 →
  encode_loop cs d = Ok d' →
  (columns d').*1 = encode_names d0 (done_cs ++ cs) (columns d0).*1
  ∧ Forall (λ c, c ∈ (columns d0).*1) cs.
Proof.
  induction cs as [|c cs IH]; intros done_cs d d' Hnd Hfresh Hd Hh; simpl.
  - intros [= <-]. by rewrite app_nil_r.
  - destruct (get_dummies d c c) as [d1|] eqn:H1; simpl; [|done].
    intros H2.
    pose proof (get_dummies_Ok _ _ _ _ H1) as R1.
    apply get_dummies_columns in H1 as [Hc H1].
    assert (done_cs ++ c :: cs = (done_cs ++ [c]) ++ cs) as Happ
      by by rewrite <- app_assoc.
    assert (c ∉ done_cs) as Hcd.
    { apply NoDup_app in Hnd as (_ & Hnd & _).
      intros Hin. apply (Hnd c Hin). left. }
    assert (∀ c' lv, c' ∈ done_cs → dummy_name c' lv ≠ c) as Hfc.
    { intros c' lv Hc'. apply Hfresh; apply elem_of_app; [by left|right; left]. }
    assert (column d c = column d0 c) as Hcol.
    { apply (column_rows d0 d (encode_cells d0 done_cs)); [done|].
      intros l. by apply cell_encode_cells. }
    rewrite Happ in Hnd, Hfresh |- *.
    destruct (IH (done_cs ++ [c]) d1 d') as [IH1 IH2]; [done..| | |done|].
    + rewrite R1, Hd, <- list_fmap_compose. apply list_fmap_ext.
      intros i r _. simpl. unfold encode_cells. rewrite foldl_app. simpl.
      by rewrite Hcol.
    + rewrite H1, Hh, Hcol. by rewrite encode_names_app.
    + split; [done|]. constructor; [|done].
      rewrite Hh in Hc.
      apply elem_of_encode_names in Hc as [?|(c' & lv & Hc' & _ & Heq)];
        [done|]. exfalso. by eapply Hfc.
Qed.

(** ** The labels of the Feature Builder *)

Lemma add_label_elem c ns k : k ∈ add_label c ns ↔ k = c ∨ k ∈ ns.
Proof.
  unfold add_label. case_decide as Hc.
  - split; [by right|]. by intros [->|?].
  - rewrite elem_of_app, list_elem_of_singleton. tauto.
Qed.

Lemma setitem_names d c s d' :
  setitem d c s = Ok d' → (columns d').*1 = add_label c (columns d).*1.
Proof.
  intros (_ & -> & _)%setitem_Ok. apply assoc_set_add_label.
Qed.

Lemma getitem_names d c s : getitem d c = Ok s → c ∈ (columns d).*1.
Proof. intros [H _]%getitem_Ok. by apply assoc_Some_names in H. Qed.

Lemma encoded_fresh c c' lv :
  c ∈ encoded_columns → c' ∈ encoded_columns → dummy_name c lv ≠ c'.
Proof.
  intros Hc Hc'. apply dummy_name_fresh; [done|].
  apply elem_of_app. by left.
Qed.

Lemma encoded_NoDup : NoDup encoded_columns.
Proof. apply (bool_decide_unpack _). by vm_compute. Qed.

(** The header of the Feature Builder's output, and what a run that returns
    has found in its input. *)
Lemma feature_engineering_frame d out :
  feature_engineering d = Ok out →
  (columns out).*1 = feature_names d (columns d).*1
  ∧ Forall (λ c, c ∈ (columns d).*1) feature_inputs
  ∧ "income_bracket_<=50K"
      ∈ encode_names d encoded_columns (columns d).*1.
Proof.
  rewrite feature_engineering_unfold.
  destruct (encode_loop encoded_columns d) as [d7|] eqn:H7; simpl; [|done].
  destruct (getitem d7 "age") as [age|] eqn:Hage; simpl; [|done].
  destruct (cut age _ _) as [age_bins|] eqn:Hbins; simpl; [|done].
  destruct (setitem d7 _ age_bins) as [d8|] eqn:H8; simpl; [|done].
  destruct (getitem d8 "marital_status") as [ms|] eqn:Hms; simpl; [|done].
  destruct (apply _ ms) as [nm|] eqn:Hnm; simpl; [|done].
  destruct (setitem d8 _ nm) as [d9|] eqn:H9; simpl; [|done].
  intros (Hred & Hout & _)%drop_columns_Ok.
  apply (encode_loop_frame d encoded_columns [] d d7) in H7
    as [N7 I7]; [|apply encoded_NoDup|by apply encoded_fresh| |done].
  2:{ rewrite <- (list_fmap_id (rows d)) at 1.
      apply list_fmap_ext. by intros i [] _. }
  apply setitem_names in H8, H9. apply getitem_names in Hage, Hms.
  change ([] ++ encoded_columns) with encoded_columns in N7.
  assert (∀ k, k ∈ ["age"; "marital_status"] →
            k ∈ encode_names d encoded_columns (columns d).*1 →
            k ∈ (columns d).*1) as Hback.
  { intros k Hk [?|(c & lv & Hc & _ & Heq)]%elem_of_encode_names; [done|].
    exfalso. apply (dummy_name_fresh c lv k Hc); [|done].
    apply elem_of_app. right. revert Hk.
    rewrite !elem_of_cons, !elem_of_nil. tauto. }
  split; [|split].
  - rewrite Hout, filter_notin_names, H9, H8, N7. done.
  - unfold feature_inputs. apply Forall_app. split; [done|].
    repeat constructor.
    + apply Hback; [left|]. by rewrite <- N7.
    + apply Hback; [right; left|].
      rewrite H8, add_label_elem, N7 in Hms. by destruct Hms.
  - apply Forall_cons in Hred as [Hred _].
    rewrite H9, H8, !add_label_elem, N7 in Hred.
    by destruct Hred as [|[|]].
Qed.

(** X1: the Feature Builder reads nine columns and raises when one of them
    is not in its input. *)
Theorem feature_engineering_missing_column d c :
  c ∈ feature_inputs → c ∉ (columns d).*1 →
  ∃ e, feature_engineering d = Raise e.
Proof.
  intros Hc Hn. destruct (feature_engineering d) as [out|e] eqn:Hout; [|eauto].
  apply feature_engineering_frame in Hout as (_ & Hin & _).
  rewrite Forall_forall in Hin. by apply Hin in Hc.
Qed.

Lemma feature_engineering_missing_column_witness :
  ("workclass" ∉ (columns five_rows).*1)
  ∧ (∃ e, feature_engineering five_rows = Raise e).
Proof.
  assert ("workclass" ∉ (columns five_rows).*1) as Hn
    by (apply (bool_decide_unpack _); by vm_compute).
  split; [exact Hn|].
  apply (feature_engineering_missing_column five_rows "workclass");
    [|exact Hn].
  apply (bool_decide_unpack _). by vm_compute.
Defined.

(** X2: the Feature Builder needs a row in the income bracket ['<=50K'].  It
    drops the column [income_bracket_<=50K], which only the expansion of
    such a row makes, so on a frame without one, an empty frame included, it
    raises. *)
Theorem feature_engineering_needs_low_bracket d :
  "income_bracket_<=50K" ∉ (columns d).*1 →
  Forall (λ v, str v ≠ "<=50K") (column d "income_bracket") →
  ∃ e, feature_engineering d = Raise e.
Proof.
  intros Hn Hrows.
  destruct (feature_engineering d) as [out|e] eqn:Hout; [|eauto].
  apply feature_engineering_frame in Hout as (_ & _ & Hin).
  apply elem_of_encode_names in Hin as [?|(c & lv & Hc & Hlv & Heq)]; [done|].
  assert (dummy_name c lv ∈ redundant_columns) as Hred
    by (rewrite <- Heq; left).
  apply redundant_dummy_name in Hred as [-> Hstr]; [|done].
  apply levels_of_elem in Hlv as [Hlv _].
  rewrite Forall_forall in Hrows. by apply Hrows in Hlv.
Qed.

Lemma feature_engineering_needs_low_bracket_witness :
  feature_engineering census_empty
  = Raise (KeyError "income_bracket_<=50K")
  ∧ (∃ e, feature_engineering census_sample = Raise e).
Proof.
  split; [by vm_compute|].
  apply (feature_engineering_needs_low_bracket census_sample).
  - apply (bool_decide_unpack _). by vm_compute.
  - apply (bool_decide_unpack _). by vm_compute.
Defined.

(** X3: the header the Feature Builder returns.  The seven expanded columns,
    [marital_status], [age] and [income_bracket_<=50K] are gone, [age_bins]
    and [never_married] are there, every other column of the input is kept,
    and the rows carry the labels of the header when those of the input
    did. *)
Theorem feature_engineering_labels d out :
  feature_engineering d = Ok out →
  (∀ c, c ∈ encoded_columns ++ redundant_columns → c ∉ (columns out).*1)
  ∧ "age_bins" ∈ (columns out).*1 ∧ "never_married" ∈ (columns out).*1
  ∧ (∀ k, k ∈ (columns d).*1 → k ∉ encoded_columns ++ redundant_columns →
          k ∈ (columns out).*1)
  ∧ (Forall (λ r, (cells r).*1 = (columns d).*1) (rows d) →
     Forall (λ r, (cells r).*1 = (columns out).*1) (rows out)).
Proof.
  intros Hout.
  pose proof (feature_engineering_rows d out Hout) as Hrows.
  apply feature_engineering_frame in Hout as (Hh & _ & _).
  rewrite Hh. unfold feature_names.
  assert (("age_bins" ∉ redundant_columns)
          ∧ ("never_married" ∉ redundant_columns))
    as [Ha Hm] by (split; apply (bool_decide_unpack _); by vm_compute).
  split; [|split; [|split; [|split]]].
  - intros c Hc [Hred Hin]%list_elem_of_filter.
    apply elem_of_app in Hc as [Hc|Hc]; [|done].
    rewrite !add_label_elem in Hin.
    destruct Hin as [->|[->|Hin]].
    + revert Hc. apply (bool_decide_unpack _). by vm_compute.
    + revert Hc. apply (bool_decide_unpack _). by vm_compute.
    + revert Hin. apply encode_names_removes; [done|].
      intros c' lv Hc'. by apply encoded_fresh.
  - apply list_elem_of_filter. split; [done|].
    rewrite !add_label_elem. auto.
  - apply list_elem_of_filter. split; [done|].
    rewrite !add_label_elem. auto.
  - intros k Hk Hn. rewrite elem_of_app in Hn.
    apply list_elem_of_filter. split; [tauto|].
    rewrite !add_label_elem. right. right.
    apply encode_names_keeps; [done|tauto].
  - intros Hal. rewrite Hrows. apply Forall_fmap, Forall_forall.
    intros r Hr. simpl. rewrite Forall_forall in Hal.
    by rewrite feature_cells_names, (Hal r Hr).
Qed.

Lemma feature_engineering_labels_witness :
  ∃ out, feature_engineering census_clean = Ok out
         ∧ "age_bins" ∈ (columns out).*1.
Proof.
  destruct (feature_engineering census_clean) as [out|e] eqn:Hout.
  - exists out. split; [done|].
    by destruct (feature_engineering_labels census_clean out Hout)
      as (_ & H & _).
  - exfalso. revert Hout. vm_compute. discriminate.
Defined.


(** ** The labels of the Cleaner *)

Lemma add_label_present c ns : c ∈ ns → add_label c ns = ns.
Proof. intros Hc. unfold add_label. by rewrite decide_True. Qed.

Lemma assign_names d c f d' :
  (s ← getitem d c; s' ← apply f s; setitem d c s') = Ok d' →
  c ∈ (columns d).*1 ∧ (columns d').*1 = (columns d).*1.
Proof.
  destruct (getitem d c) as [s|] eqn:Hs; simpl; [|done].
  destruct (apply f s) as [s'|] eqn:Hs'; simpl; [|done].
  intros Hd'%setitem_names. apply getitem_names in Hs.
  split; [done|]. by rewrite Hd', add_label_present.
Qed.

Lemma strip_step_names d col d' :
  strip_step d col = Ok d' → (columns d').*1 = (columns d).*1.
Proof.
  unfold strip_step. destruct (dtype_of col (columns d)) as [t|]; [|done].
  destruct (decide (t = object)).
  - by intros [_ ?]%assign_names.
  - by intros [= <-].
Qed.

Lemma strip_loop_names cols d d' :
  strip_loop cols d = Ok d' → (columns d').*1 = (columns d).*1.
Proof.
  revert d. induction cols as [|col cols IH]; intros d; simpl.
  - by intros [= <-].
  - destruct (strip_step d col) as [d1|] eqn:H1; simpl; [|done].
    intros ->%IH. by apply strip_step_names in H1.
Qed.

(** The header of the Cleaner's output, and what a run that returns has
    found in its input. *)
Lemma preprocessing_frame_names d out :
  preprocessing_frame d = Ok out →
  (columns out).*1 = filter (λ k, k ∉ unused_columns) (columns d).*1
  ∧ Forall (λ c, c ∈ (columns d).*1) cleaner_inputs.
Proof.
  unfold preprocessing_frame.
  set (d0 := deduplicated d).
  assert (columns d0 = columns d) as Hc0 by done.
  destruct (strip_loop _ d0) as [d1|] eqn:H1; simpl; [|done].
  destruct (unknown_step d1 _) as [d2|] eqn:H2; simpl; [|done].
  destruct (unknown_step d2 _) as [d3|] eqn:H3; simpl; [|done].
  destruct (unknown_step d3 _) as [d4|] eqn:H4; simpl; [|done].
  intros (Hun & Hout & _)%drop_columns_Ok.
  apply strip_loop_names in H1.
  apply assign_names in H2 as [I2 H2], H3 as [I3 H3], H4 as [I4 H4].
  rewrite H4, H3, H2, H1, Hc0 in Hun.
  rewrite H3, H2, H1, Hc0 in I4. rewrite H2, H1, Hc0 in I3.
  rewrite H1, Hc0 in I2.
  split.
  - by rewrite Hout, filter_notin_names, H4, H3, H2, H1, Hc0.
  - unfold cleaner_inputs, renamed_columns. apply Forall_app.
    split; [by repeat constructor|done].
Qed.

Lemma preprocessing_frame_missing d c :
  c ∈ cleaner_inputs → c ∉ (columns d).*1 →
  ∃ e, preprocessing_frame d = Raise e.
Proof.
  intros Hc Hn. destruct (preprocessing_frame d) as [out|e] eqn:Hout; [|eauto].
  apply preprocessing_frame_names in Hout as [_ Hin].
  rewrite Forall_forall in Hin. by apply Hin in Hc.
Qed.

(** X4: the Cleaner names six columns and raises when one of them is not in
    its input. *)
Theorem preprocessing_missing_column (σ : store) (df : loc) d c :
  σ !! df = Some d → c ∈ cleaner_inputs → c ∉ (columns d).*1 →
  ∃ e σ', preprocessing df σ = (Raise e, σ').
Proof.
  intros Hd Hc Hn.
  destruct (preprocessing_run σ df d Hd) as (σ' & Hrun & _).
  destruct (preprocessing_frame_missing d c Hc Hn) as [e He].
  exists e, σ'. by rewrite Hrun, He.
Qed.

Lemma preprocessing_missing_column_witness :
  ∃ e σ', preprocessing 1%positive {[ 1%positive := five_rows ]}
          = (Raise e, σ').
Proof.
  apply (preprocessing_missing_column _ 1%positive five_rows "workclass").
  - reflexivity.
  - apply (bool_decide_unpack _). by vm_compute.
  - apply (bool_decide_unpack _). by vm_compute.
Defined.

Lemma strip_cells_names h cols (l : list (string * value)) :
  cols ⊆ l.*1 → (strip_cells h cols l).*1 = l.*1.
Proof.
  unfold strip_cells. revert l.
  induction cols as [|c cols IH]; intros l Hcols; simpl; [done|].
  assert (c ∈ l.*1) as Hc by (apply Hcols; left).
  assert (cols ⊆ l.*1) as Hcols' by (intros x Hx; apply Hcols; by right).
  case_decide; [|by apply IH].
  rewrite IH; by rewrite map_cell_names.
Qed.

Lemma clean_cells_names h (l : list (string * value)) :
  l.*1 = h.*1 → Forall (λ c, c ∈ h.*1) renamed_columns →
  (clean_cells h l).*1 = filter (λ k, k ∉ unused_columns) h.*1.
Proof.
  intros Hn Hin. unfold clean_cells.
  apply Forall_cons in Hin as [Hw Hin].
  apply Forall_cons in Hin as [Ho Hin].
  apply Forall_cons in Hin as [Hc _].
  pose proof (strip_cells_names h h.*1 l) as N1.
  rewrite Hn in N1. specialize (N1 (reflexivity _)).
  rewrite filter_notin_names. f_equal.
  set (S0 := strip_cells h h.*1 l) in *.
  set (S1 := map_cell "workclass" "workclass" unknown_value S0).
  set (S2 := map_cell "occupation" "occupation" unknown_value S1).
  assert (S1.*1 = h.*1) as N2
    by (unfold S1; rewrite map_cell_names; by rewrite N1).
  assert (S2.*1 = h.*1) as N3
    by (unfold S2; rewrite map_cell_names; by rewrite N2).
  rewrite map_cell_names; by rewrite N3.
Qed.

(** X5: the header the Cleaner returns is the header it was given without
    [education_num], [relationship] and [functional_weight], in the same
    order, and the rows of the output carry the labels of that header when
    the input was well formed. *)
Theorem preprocessing_labels (σ σ' : store) (df r : loc) d out :
  σ !! df = Some d → preprocessing df σ = (Ok r, σ') → σ' !! r = Some out →
  (columns out).*1 = filter (λ k, k ∉ unused_columns) (columns d).*1
  ∧ (wf d → Forall (λ ro, (cells ro).*1 = (columns out).*1) (rows out)).
Proof.
  intros Hd (d1 & out1 & Hd1 & Hout & -> & ->)%preprocessing_Ok Hr.
  rewrite lookup_insert_eq in Hr. injection Hr as ->.
  rewrite Hd in Hd1. injection Hd1 as <-.
  pose proof (preprocessing_frame_rows d out Hout) as Hrows.
  apply preprocessing_frame_names in Hout as [Hh Hin].
  split; [done|]. intros Hwf.
  rewrite Hrows, Hh. apply Forall_fmap, Forall_forall. intros ri Hri. simpl.
  destruct (deduplicated_rows d) as (_ & Hkept & _).
  destruct (Hkept ri Hri) as [Hri' _].
  apply clean_cells_names; [by apply wf_names|].
  unfold cleaner_inputs in Hin. by apply Forall_app in Hin as [? _].
Qed.

Lemma preprocessing_labels_witness :
  (columns (default census_sample
              ((preprocessing 1%positive sample_store).2 !! 1%positive))).*1
  = filter (λ k, k ∉ unused_columns) (columns census_sample).*1.
Proof.
  apply (preprocessing_labels sample_store
           (preprocessing 1%positive sample_store).2 1%positive 1%positive
           census_sample).
  - reflexivity.
  - vm_compute. reflexivity.
  - vm_compute. reflexivity.
Defined.

(** X6: the Cleaner cannot run twice on one object.  A run that returns has
    dropped [education_num] from the object, and a second run on it raises
    where it looks for the column. *)
Theorem preprocessing_twice_raises (σ σ' : store) (df r : loc) :
  preprocessing df σ = (Ok r, σ') →
  ∃ e σ'', preprocessing r σ' = (Raise e, σ'').
Proof.
  intros (d & out & Hd & Hout & -> & ->)%preprocessing_Ok.
  apply preprocessing_frame_names in Hout as [Hh _].
  destruct (preprocessing_run (<[df:=out]> σ) df out) as (σ'' & Hrun & _);
    [apply lookup_insert_eq|].
  destruct (preprocessing_frame_missing out "education_num") as [e He].
  - apply (bool_decide_unpack _). by vm_compute.
  - rewrite Hh. intros [Hn _]%list_elem_of_filter. apply Hn. left.
  - exists e, σ''. by rewrite Hrun, He.
Qed.

Lemma preprocessing_twice_raises_witness :
  ∃ e σ'', preprocessing 1%positive (preprocessing 1%positive sample_store).2
           = (Raise e, σ'').
Proof.
  apply (preprocessing_twice_raises sample_store _ 1%positive).
  vm_compute. reflexivity.
Defined.

(** ** The rows the Cleaner keeps *)

Lemma keep_first_sublist seen l : keep_first seen l `sublist_of` l.
Proof.
  revert seen. induction l as [|x l IH]; intros seen; simpl; [done|].
  case_decide; [apply sublist_cons | apply sublist_skip]; apply IH.
Qed.

Lemma keep_first_keeps seen l1 r l2 :
  cells r ∉ seen → cells r ∉ cells <$> l1 →
  r ∈ keep_first seen (l1 ++ r :: l2).
Proof.
  revert seen. induction l1 as [|x l1 IH]; intros seen Hs Hl; simpl.
  - rewrite decide_False by done. left.
  - rewrite fmap_cons in Hl. apply not_elem_of_cons in Hl as [Hx Hl].
    case_decide.
    + by apply IH.
    + right. apply IH; [|done]. apply not_elem_of_cons. by split.
Qed.

(** X7: the Cleaner drops rows and does nothing else to the row order.  The
    labels of the output are a subsequence of the labels of the input, and a
    row without a missing value that no earlier row equals is kept: of equal
    rows the first stays. *)
Theorem preprocessing_keeps_first (σ σ' : store) (df r : loc) d out :
  σ !! df = Some d → preprocessing df σ = (Ok r, σ') → σ' !! r = Some out →
  label <$> rows out `sublist_of` label <$> rows d
  ∧ ∀ l1 ri l2,
      rows d = l1 ++ ri :: l2 → Forall (λ v, v ≠ NA) (cells ri).*2 →
      cells ri ∉ cells <$> l1 → label ri ∈ label <$> rows out.
Proof.
  intros Hd (d1 & out1 & Hd1 & Hout & -> & ->)%preprocessing_Ok Hr.
  rewrite lookup_insert_eq in Hr. injection Hr as ->.
  rewrite Hd in Hd1. injection Hd1 as <-.
  rewrite (preprocessing_frame_rows d out Hout), <- list_fmap_compose.
  assert (label ∘ clean_row (columns d) = label) as -> by done.
  unfold deduplicated, drop_duplicates, dropna. simpl. split.
  - apply fmap_sublist. etrans; [apply keep_first_sublist|].
    apply sublist_filter.
  - intros l1 ri l2 Hrows Hna Hfirst.
    apply list_elem_of_fmap. exists ri. split; [done|].
    rewrite Hrows, filter_app, filter_cons.
    rewrite decide_True by by apply forallb_notna.
    apply keep_first_keeps; [apply not_elem_of_nil|].
    intros (x & Hx & Hin)%list_elem_of_fmap.
    apply list_elem_of_filter in Hin as [_ Hin].
    apply Hfirst, list_elem_of_fmap. eauto.
Qed.

Lemma preprocessing_keeps_first_witness :
  label <$> rows (default census_sample
                    ((preprocessing 1%positive sample_store).2 !! 1%positive))
  `sublist_of` label <$> rows census_sample.
Proof.
  apply (preprocessing_keeps_first sample_store
           (preprocessing 1%positive sample_store).2 1%positive 1%positive
           census_sample).
  - reflexivity.
  - vm_compute. reflexivity.
  - vm_compute. reflexivity.
Defined.

(** ** Trimmed strings *)

Lemma lstrip_idem s : lstrip (lstrip s) = lstrip s.
Proof.
  induction s as [|a s IH]; [done|]. simpl.
  destruct (is_space a) eqn:Ha; [done|]. simpl. by rewrite Ha.
Qed.

Lemma rstrip_idem s : rstrip (rstrip s) = rstrip s.
Proof.
  induction s as [|a s IH]; [done|]. simpl.
  destruct (rstrip s) as [|b t] eqn:Hs.
  - destruct (is_space a) eqn:Ha; [done|]. simpl. by rewrite Ha.
  - change (rstrip (String a (String b t)))
      with (match rstrip (String b t) with
            | EmptyString =>
                if is_space a then EmptyString else String a EmptyString
            | u => String a u
            end).
    by rewrite IH.
Qed.

Lemma rstrip_fixed_tail a s :
  rstrip (String a s) = String a s → is_space a = true → rstrip s = s.
Proof.
  simpl. destruct (rstrip s) as [|b t] eqn:Hs.
  - intros H Ha. rewrite Ha in H. done.
  - by intros [= <-] _.
Qed.

Lemma rstrip_lstrip s : rstrip s = s → rstrip (lstrip s) = lstrip s.
Proof.
  induction s as [|a s IH]; [done|]. intros Hs. simpl.
  destruct (is_space a) eqn:Ha; [|done].
  apply IH. by apply (rstrip_fixed_tail a).
Qed.

(** What [x.rstrip().lstrip()] returns has no blank at either end. *)
Lemma strip_trimmed s :
  lstrip (lstrip (rstrip s)) = lstrip (rstrip s)
  ∧ rstrip (lstrip (rstrip s)) = lstrip (rstrip s).
Proof.
  split; [apply lstrip_idem|]. apply rstrip_lstrip, rstrip_idem.
Qed.

Lemma strip_cells_other h cols (l : list (string * value)) c :
  dtype_of c h ≠ Some object ∨ c ∉ cols →
  cell c (strip_cells h cols l) = cell c l.
Proof.
  unfold strip_cells. revert l.
  induction cols as [|c0 cols IH]; intros l Hc; simpl; [done|].
  rewrite IH.
  - case_decide as H0; [|done]. unfold map_cell.
    apply assoc_set_ne. intros ->.
    destruct Hc as [Hc|Hc]; [done|]. apply Hc. left.
  - destruct Hc as [Hc|Hc]; [by left|]. right.
    by apply not_elem_of_cons in Hc as [_ ?].
Qed.

Lemma strip_cells_trimmed h cols (l : list (string * value)) c s :
  dtype_of c h = Some object → c ∈ cols →
  cell c (strip_cells h cols l) = Some (VStr s) →
  lstrip s = s ∧ rstrip s = s.
Proof.
  intros Hobj. revert l.
  induction cols as [|c0 cols IH]; intros l Hc.
  - by apply elem_of_nil in Hc.
  - change (strip_cells h (c0 :: cols) l)
      with (strip_cells h cols
              (if decide (dtype_of c0 h = Some object)
               then map_cell c0 c0 strip_value l else l)).
    destruct (decide (c ∈ cols)) as [Hin|Hout]; [by apply IH|].
    apply elem_of_cons in Hc as [->|Hc]; [|done].
    rewrite strip_cells_other by by right.
    rewrite decide_True by done. unfold map_cell.
    rewrite assoc_set_eq. intros [= Hs].
    destruct (default NA (cell c0 l)) as [|z|s0]; simpl in Hs; try done.
    injection Hs as <-. apply strip_trimmed.
Qed.

Lemma assoc_filter_in {V} (cs : list string) (l : list (string * V)) c :
  c ∈ cs → assoc c (filter (λ p, p.1 ∉ cs) l) = None.
Proof.
  intros Hc. apply assoc_None. rewrite filter_notin_names.
  by intros [? _]%list_elem_of_filter.
Qed.

Lemma clean_cells_other h (l : list (string * value)) c :
  c ∉ renamed_columns → c ∉ unused_columns →
  cell c (clean_cells h l) = cell c (strip_cells h h.*1 l).
Proof.
  intros Hr Hu. unfold clean_cells, map_cell.
  rewrite assoc_filter_notin by done.
  unfold renamed_columns in Hr.
  rewrite !not_elem_of_cons in Hr. destruct Hr as (? & ? & ? & _).
  by rewrite !assoc_set_ne.
Qed.

(** X8: every string the Cleaner returns is trimmed.  In the output of a
    well-formed frame no string has a blank at its start or at its end. *)
Theorem preprocessing_trims (σ σ' : store) (df r : loc) d out :
  σ !! df = Some d → wf d →
  preprocessing df σ = (Ok r, σ') → σ' !! r = Some out →
  ∀ ro c s, ro ∈ rows out → cell c (cells ro) = Some (VStr s) →
            lstrip s = s ∧ rstrip s = s.
Proof.
  intros Hd Hwf (d1 & out1 & Hd1 & Hout & -> & ->)%preprocessing_Ok Hr.
  rewrite lookup_insert_eq in Hr. injection Hr as ->.
  rewrite Hd in Hd1. injection Hd1 as <-.
  intros ro c s Hro Hs.
  rewrite (preprocessing_frame_rows d out Hout) in Hro.
  apply list_elem_of_fmap in Hro as (ri & -> & Hri). simpl in Hs.
  destruct (deduplicated_rows d) as (_ & Hkept & _).
  destruct (Hkept ri Hri) as [Hin _].
  unfold wf in Hwf. rewrite Forall_forall in Hwf. specialize (Hwf ri Hin).
  assert (∀ s', cell c (strip_cells (columns d) (columns d).*1 (cells ri))
                = Some (VStr s') → lstrip s' = s' ∧ rstrip s' = s') as Hstrip.
  { intros s' Hs'.
    destruct (decide (dtype_of c (columns d) = Some object)) as [Hobj|Hobj].
    - apply (strip_cells_trimmed _ _ _ _ _ Hobj) in Hs'; [done|].
      by apply assoc_Some_names in Hobj.
    - rewrite strip_cells_other in Hs' by by left.
      by apply (wf_str_object _ _ _ _ Hwf) in Hs'. }
  destruct (decide (c ∈ unused_columns)) as [Hu|Hu].
  { unfold clean_cells in Hs. by rewrite assoc_filter_in in Hs. }
  destruct (decide (c ∈ renamed_columns)) as [Hre|Hre].
  - rewrite clean_cells_renamed in Hs by done. injection Hs as Hs.
    unfold unknown_value in Hs. case_decide as Hq.
    + injection Hs as <-. by vm_compute.
    + apply Hstrip.
      destruct (cell c (strip_cells _ _ _)) as [v|]; simpl in Hs; by subst.
  - rewrite clean_cells_other in Hs by done. by apply Hstrip.
Qed.

Lemma preprocessing_trims_witness :
  wf census_sample
  ∧ ∀ ro c s,
      ro ∈ rows (default census_sample
                   ((preprocessing 1%positive sample_store).2 !! 1%positive)) →
      cell c (cells ro) = Some (VStr s) → lstrip s = s ∧ rstrip s = s.
Proof.
  assert (wf census_sample) as Hwf
    by (apply (bool_decide_unpack _); vm_compute; exact I).
  split; [exact Hwf|].
  apply (preprocessing_trims sample_store
           (preprocessing 1%positive sample_store).2 1%positive 1%positive
           census_sample).
  - reflexivity.
  - exact Hwf.
  - vm_compute. reflexivity.
  - vm_compute. reflexivity.
Defined.

(** ** What the split needs and what it returns *)

Lemma iloc_in_range {A} (a : list A) idx :
  Forall (λ i, i < length a) idx → iloc a idx = Ok (omap (a !!.) idx).
Proof.
  unfold iloc. induction 1 as [|i idx Hi _ IH]; [done|].
  apply lookup_lt_is_Some_2 in Hi as [x Hx].
  cbn [traverse omap list_omap]. rewrite Hx, IH. done.
Qed.

Lemma length_omap_lookup {A} (a : list A) idx :
  Forall (λ i, i < length a) idx → length (omap (a !!.) idx) = length idx.
Proof. intros H%iloc_in_range. by apply iloc_omap in H as [_ ?]. Qed.

Lemma omap_lookup_paired {A B C} (f : A → B) (g : A → C) (l : list A) idx :
  Forall2 (λ x y, ∃ r, r ∈ l ∧ x = f r ∧ y = g r)
    (omap ((f <$> l) !!.) idx) (omap ((g <$> l) !!.) idx).
Proof.
  induction idx as [|i idx IH]; [constructor|].
  cbn [omap list_omap]. rewrite !list_lookup_fmap.
  destruct (l !! i) as [r|] eqn:Hr; simpl; [|done].
  constructor; [|done]. exists r. split; [|done].
  by apply list_elem_of_lookup_2 in Hr.
Qed.

Lemma fifth_below n : 2 ≤ n → (n + 4) `div` 5 < n.
Proof.
  intros Hn. pose proof (Nat.div_mod_eq (n + 4) 5).
  pose proof (Nat.mod_upper_bound (n + 4) 5). lia.
Qed.

Lemma fifth_small n : n < 2 → n - (n + 4) `div` 5 = 0.
Proof.
  intros Hn. destruct n as [|[|n]]; [done|done|lia].
Qed.

Section split_outcomes.
Context {rng : Type}.
Variable RandomState : Z → rng.
Variable permutation : rng → nat → list nat * rng.

Lemma split_data_parts (df : DataFrame) (g : rng) :
  let n := length (rows df) in
  let X_of r := Row (label r) (filter (λ p, p.1 ∉ ["never_married"]) (cells r)) in
  let y_of r := default NA (cell "never_married" (cells r)) in
  "never_married" ∈ (columns df).*1 → 2 ≤ n →
  (permutation (RandomState 55) n).1 ≡ₚ seq 0 n →
  ∃ X_train X_val y_train y_val,
    split_data RandomState permutation df g
    = (Ok (X_train, X_val, y_train, y_val), g)
    ∧ length (rows X_val) = (n + 4) `div` 5
    ∧ length (rows X_train) = n - (n + 4) `div` 5
    ∧ rows X_val ++ rows X_train ≡ₚ X_of <$> rows df
    ∧ ("never_married" ∉ (columns X_train).*1)
    ∧ ("never_married" ∉ (columns X_val).*1)
    ∧ Forall2 (λ x y, ∃ r, r ∈ rows df ∧ x = X_of r ∧ y = y_of r)
        (rows X_train) (svalues y_train)
    ∧ Forall2 (λ x y, ∃ r, r ∈ rows df ∧ x = X_of r ∧ y = y_of r)
        (rows X_val) (svalues y_val).
Proof.
  intros n X_of y_of Hc Hn Hperm.
  unfold split_data. rewrite ST_bind_run. unfold lift at 1, getitem.
  apply assoc_is_Some in Hc as [t Ht]. rewrite Ht.
  rewrite ST_bind_run. unfold lift at 1, drop_columns.
  assert (filter (λ c, c ∉ (columns df).*1) ["never_married"] = []) as ->.
  { rewrite filter_cons, filter_nil. apply assoc_Some_names in Ht.
    by destruct (decide (_ ∉ _)). }
  set (X := Frame _ _). set (y := Ser _ _).
  assert (rows X = X_of <$> rows df) as HX by done.
  assert (svalues y = y_of <$> rows df) as Hy by done.
  assert (length (rows X) = n) as LX by (by rewrite HX, length_fmap).
  assert (length (svalues y) = n) as Ly by (by rewrite Hy, length_fmap).
  assert ("never_married" ∉ (columns X).*1) as HcX.
  { unfold X. simpl. rewrite filter_notin_names.
    intros [Hx _]%list_elem_of_filter. apply Hx. left. }
  clearbody X y.
  unfold train_test_split. rewrite LX, Ly, n_test_fifth.
  set (n_test := (n + 4) `div` 5).
  pose proof (fifth_below n Hn) as Hlt. fold n_test in Hlt.
  destruct (decide (n ≠ n)) as [|_]; [done|].
  destruct (decide (n - n_test = 0)) as [|_]; [lia|].
  rewrite ST_bind_run. unfold draw_permutation.
  set (p := (permutation (RandomState 55) n).1) in *.
  assert (length p = n) as Lp by (by rewrite Hperm, length_seq).
  assert (Forall (λ i, i < n) p) as Hp.
  { rewrite Hperm. apply Forall_forall. intros i Hi%elem_of_seq. lia. }
  assert (take n_test p ++ take (n - n_test) (drop n_test p) = p) as Hsplit.
  { rewrite (take_ge (drop n_test p)) by (rewrite length_drop; lia).
    apply take_drop. }
  assert (Forall (λ i, i < n) (take n_test p)) as Htest
    by (by apply Forall_take).
  assert (Forall (λ i, i < n) (take (n - n_test) (drop n_test p))) as Htrain
    by (by apply Forall_take, Forall_drop).
  rewrite !ST_bind_run. unfold lift at 1.
  rewrite (iloc_in_range (rows X)) by (by rewrite LX).
  rewrite !ST_bind_run. unfold lift at 1.
  rewrite (iloc_in_range (rows X)) by (by rewrite LX).
  rewrite !ST_bind_run. unfold lift at 1.
  rewrite (iloc_in_range (svalues y)) by (by rewrite Ly).
  rewrite !ST_bind_run. unfold lift at 1.
  rewrite (iloc_in_range (svalues y)) by (by rewrite Ly).
  eexists _, _, _, _. split; [reflexivity|]. simpl.
  split; [|split; [|split; [|split; [|split; [|split]]]]].
  - rewrite length_omap_lookup by (by rewrite LX).
    rewrite length_take. lia.
  - rewrite length_omap_lookup by (by rewrite LX).
    rewrite length_take, length_drop. lia.
  - rewrite <- omap_app, Hsplit, Hperm, <- LX, omap_lookup_seq. by rewrite HX.
  - done.
  - done.
  - rewrite HX, Hy. apply omap_lookup_paired.
  - rewrite HX, Hy. apply omap_lookup_paired.
Qed.

(** C8, as the code has it.  The split is a function of the frame alone:
    whatever the state of numpy's global generator before the two runs,
    [cross_validation] puts the same rows in the training subset and the
    same rows in the validation subset, and it leaves the global generator
    as it was.  The subsets are not 80% and 20% of the rows: when the frame
    has the column [never_married] and two rows or more, and the generator
    of the seed returns a permutation of the positions, the validation
    subset has a fifth of the rows, rounded up, the training subset has the
    others, each row of the frame is in one of the two, and every row of
    [X] is side by side with the [never_married] of the row of the frame it
    was made from. *)
Theorem split_data_deterministic (df : DataFrame) (g1 g2 : rng) :
  let n := length (rows df) in
  let X_of r := Row (label r) (filter (λ p, p.1 ∉ ["never_married"]) (cells r)) in
  let y_of r := default NA (cell "never_married" (cells r)) in
  (split_data RandomState permutation df g1).1
  = (split_data RandomState permutation df g2).1
  ∧ (split_data RandomState permutation df g1).2 = g1
  ∧ ("never_married" ∈ (columns df).*1 → 2 ≤ n →
     (permutation (RandomState 55) n).1 ≡ₚ seq 0 n →
     ∃ X_train X_val y_train y_val,
       (split_data RandomState permutation df g1).1
       = Ok (X_train, X_val, y_train, y_val)
       ∧ length (rows X_val) = (n + 4) `div` 5
       ∧ length (rows X_train) = n - (n + 4) `div` 5
       ∧ rows X_val ++ rows X_train ≡ₚ X_of <$> rows df
       ∧ ("never_married" ∉ (columns X_train).*1)
       ∧ ("never_married" ∉ (columns X_val).*1)
       ∧ Forall2 (λ x y, ∃ r, r ∈ rows df ∧ x = X_of r ∧ y = y_of r)
           (rows X_train) (svalues y_train)
       ∧ Forall2 (λ x y, ∃ r, r ∈ rows df ∧ x = X_of r ∧ y = y_of r)
           (rows X_val) (svalues y_val)).
Proof.
  intros n X_of y_of.
  destruct (stateless_split_data RandomState permutation df) as [res Hres].
  split; [by rewrite !Hres|]. split; [by rewrite Hres|].
  intros Hc Hn Hperm.
  destruct (split_data_parts df g1 Hc Hn Hperm)
    as (X_train & X_val & y_train & y_val & Hrun & Hparts).
  exists X_train, X_val, y_train, y_val. by rewrite Hrun.
Qed.

Lemma split_data_Ok (df : DataFrame) (g g' : rng) res :
  split_data RandomState permutation df g = (Ok res, g') →
  "never_married" ∈ (columns df).*1 ∧ 2 ≤ length (rows df).
Proof.
  unfold split_data. rewrite ST_bind_run. unfold lift at 1, getitem.
  destruct (dtype_of _ (columns df)) as [t|] eqn:Ht; [|done].
  rewrite ST_bind_run. unfold lift at 1.
  destruct (drop_columns df _) as [X|] eqn:HX; [|done].
  apply drop_columns_Ok in HX as (_ & _ & HX).
  intros Hsplit. split; [by apply assoc_Some_names in Ht|].
  revert Hsplit. unfold train_test_split.
  assert (length (rows X) = length (rows df)) as ->
    by (by rewrite HX, length_fmap).
  destruct (decide (_ ≠ _)); [done|].
  rewrite n_test_fifth.
  destruct (decide (_ = 0)) as [|Hne]; [done|]. intros _.
  destruct (decide (2 ≤ length (rows df))) as [|Hsmall]; [done|].
  exfalso. apply Hne, fifth_small. lia.
Qed.

(** X9: what the split needs.  It returns only for a frame with the column
    [never_married] and two rows or more; on a frame of one row, or of none,
    there is no row left to train on and [train_test_split] raises. *)
Theorem split_data_requires (df : DataFrame) (g g' : rng) res :
  split_data RandomState permutation df g = (Ok res, g') →
  "never_married" ∈ (columns df).*1 ∧ 2 ≤ length (rows df).
Proof. apply split_data_Ok. Qed.
End split_outcomes.

Lemma split_data_deterministic_witness :
  (split_data toy_RandomState toy_permutation five_rows 0%Z).1
  = (split_data toy_RandomState toy_permutation five_rows 7%Z).1
  ∧ ∃ X_train X_val y_train y_val,
      (split_data toy_RandomState toy_permutation five_rows 0%Z).1
      = Ok (X_train, X_val, y_train, y_val)
      ∧ length (rows X_val) = 1 ∧ length (rows X_train) = 4.
Proof.
  destruct (split_data_deterministic toy_RandomState toy_permutation five_rows
              0%Z 7%Z) as (Hsame & _ & Hparts).
  split; [exact Hsame|].
  destruct Hparts
    as (X_train & X_val & y_train & y_val & Hrun & Hv & Ht & _).
  - apply (bool_decide_unpack _). by vm_compute.
  - vm_compute. lia.
  - vm_compute. apply (bool_decide_unpack _). by vm_compute.
  - exists X_train, X_val, y_train, y_val.
    split; [exact Hrun|]. split; [exact Hv|exact Ht].
Defined.

(** C8, as stated, fails: of three rows the split puts one in the
    validation subset and two in the training subset, a third and two
    thirds of the rows, not 20% and 80%. *)
Lemma validation_subset_is_not_a_fifth :
  ∃ X_train X_val y_train y_val,
    split_data toy_RandomState toy_permutation three_rows 0%Z
    = (Ok (X_train, X_val, y_train, y_val), 0%Z)
    ∧ length (rows three_rows) = 3
    ∧ length (rows X_val) = 1 ∧ length (rows X_train) = 2
    ∧ 5 * length (rows X_val) ≠ length (rows three_rows)
    ∧ 5 * length (rows X_train) ≠ 4 * length (rows three_rows).
Proof.
  do 4 eexists. split; [vm_compute; reflexivity|].
  vm_compute. repeat split; lia.
Qed.

Lemma split_data_requires_witness :
  "never_married" ∈ (columns five_rows).*1 ∧ 2 ≤ length (rows five_rows).
Proof.
  destruct (split_data toy_RandomState toy_permutation five_rows 0%Z)
    as [[res|e] g'] eqn:Hrun.
  - apply (split_data_requires toy_RandomState toy_permutation five_rows
             0%Z g' res Hrun).
  - exfalso. revert Hrun. vm_compute. discriminate.
Defined.

(** ** The object of the Cleaner after a run that raises *)



















(** ** The Cleaner, then the Feature Builder *)







(** ** The Feature Builder, then the split *)

Lemma Forall2_right {A B} (P : A → B → Prop) (Q : B → Prop) l k :
  Forall2 P l k → (∀ x y, P x y → Q y) → Forall Q k.
Proof. induction 1; intros HPQ; constructor; eauto. Qed.

Lemma feature_engineering_target d out :
  feature_engineering d = Ok out →
  "never_married" ∈ (columns out).*1
  ∧ length (rows out) = length (rows d)
  ∧ ∀ r, r ∈ rows out →
         default NA (cell "never_married" (cells r)) = VInt 0
         ∨ default NA (cell "never_married" (cells r)) = VInt 1.
Proof.
  intros Hout. pose proof (feature_engineering_rows d out Hout) as Hrows.
  apply feature_engineering_frame in Hout as (Hh & _ & _).
  split; [|split].
  - rewrite Hh. unfold feature_names. apply list_elem_of_filter.
    split; [apply (bool_decide_unpack _); by vm_compute|].
    rewrite !add_label_elem. auto.
  - by rewrite Hrows, length_fmap.
  - intros r Hr. rewrite Hrows in Hr.
    apply list_elem_of_fmap in Hr as (r0 & -> & _). simpl.
    destruct (cell_feature_cells d (cells r0)) as [_ ->]. simpl.
    unfold never_married_value. case_decide; auto.
Qed.

Section features_then_split.
Context {rng : Type}.
Variable RandomState : Z → rng.
Variable permutation : rng → nat → list nat * rng.

(** X12: the split of what the Feature Builder returns.  The features always
    have the column [never_married] and as many rows as the frame they were
    made from, so whether [cross_validation] gets its parts depends on the
    number of rows alone: with two rows or more it gets them, a fifth of the
    rows for validation, and every target it trains or validates on is 0
    or 1; with fewer the split raises. *)
Theorem features_split (d out : DataFrame) (g : rng) :
  let n := length (rows d) in
  feature_engineering d = Ok out →
  (permutation (RandomState 55) n).1 ≡ₚ seq 0 n →
  if decide (2 ≤ n)
  then ∃ X_train X_val y_train y_val,
         split_data RandomState permutation out g
         = (Ok (X_train, X_val, y_train, y_val), g)
         ∧ length (rows X_val) = (n + 4) `div` 5
         ∧ length (rows X_train) = n - (n + 4) `div` 5
         ∧ Forall (λ y, y = VInt 0 ∨ y = VInt 1)
             (svalues y_train ++ svalues y_val)
  else ∃ e, split_data RandomState permutation out g = (Raise e, g).
Proof.
  intros n (Hc & Hlen & Hy)%feature_engineering_target Hperm.
  destruct (decide (2 ≤ n)) as [Hn|Hn].
  - destruct (split_data_parts RandomState permutation out g)
      as (X_train & X_val & y_train & y_val & Hrun & Lv & Lt & _ & _ & _
          & Pt & Pv); [done|by rewrite Hlen|by rewrite Hlen|].
    exists X_train, X_val, y_train, y_val. rewrite Hlen in Lv, Lt.
    split; [done|]. split; [done|]. split; [done|].
    apply Forall_app. split.
    + apply (Forall2_right _ _ _ _ Pt). intros x y (r & Hr & _ & ->). auto.
    + apply (Forall2_right _ _ _ _ Pv). intros x y (r & Hr & _ & ->). auto.
  - destruct (stateless_split_data RandomState permutation out) as [res Hres].
    rewrite Hres. destruct res as [parts|e]; [|eauto].
    exfalso. apply Hn. unfold n. rewrite <- Hlen.
    by apply (split_data_Ok RandomState permutation out g g parts).
Qed.
End features_then_split.

Lemma features_split_witness :
  ∃ out X_train X_val y_train y_val,
    feature_engineering census_clean = Ok out
    ∧ split_data toy_RandomState toy_permutation out 0%Z
      = (Ok (X_train, X_val, y_train, y_val), 0%Z).
Proof.
  destruct (feature_engineering census_clean) as [out|e] eqn:Hout.
  - assert ((toy_permutation (toy_RandomState 55)
               (length (rows census_clean))).1
            ≡ₚ seq 0 (length (rows census_clean))) as Hperm
      by (vm_compute; apply (bool_decide_unpack _); by vm_compute).
    pose proof (features_split toy_RandomState toy_permutation census_clean
                  out 0%Z Hout Hperm) as H.
    destruct (decide (2 ≤ length (rows census_clean))) as [_|Hn].
    + destruct H as (X_train & X_val & y_train & y_val & Hrun & _).
      exists out, X_train, X_val, y_train, y_val.
      split; [reflexivity|exact Hrun].
    + exfalso. apply Hn. vm_compute. lia.
  - exfalso. revert Hout. vm_compute. discriminate.
Defined.

(** ** The names of the cross-validation metrics *)

(** A number in decimal has no underscore. *)
Lemma pretty_N_go_no_sep x : ∀ acc,
  (∀ a b, acc ≠ a +:+ String "_" b) →
  ∀ a b, pretty_N_go x acc ≠ a +:+ String "_" b.
Proof.
  induction (N.lt_wf_0 x) as [x _ IH]; intros acc Hacc.
  assert (x = 0 ∨ 0 < x)%N as [->|Hx] by lia.
  - by rewrite pretty_N_go_0.
  - rewrite pretty_N_go_step by done. apply IH.
    { by apply N.div_lt. }
    intros [|c a] b; simpl.
    + intros [= Hc _]. revert Hc. unfold pretty_N_char.
      by repeat case_match.
    + intros [= _ Hs]. by apply (Hacc a b).
Qed.

Lemma pretty_nat_no_sep (n : nat) a b : pretty n ≠ a +:+ String "_" b.
Proof.
  unfold pretty, pretty_nat, pretty, pretty_N. case_decide.
  - destruct a as [|c [|c' a]]; simpl; discriminate.
  - apply pretty_N_go_no_sep. intros [|c a'] b'; simpl; discriminate.
Qed.

(** The last underscore of a name splits it. *)
Lemma sep_inj k1 : ∀ k2 p1 p2,
  (∀ a b, p1 ≠ a +:+ String "_" b) → (∀ a b, p2 ≠ a +:+ String "_" b) →
  k1 +:+ String "_" p1 = k2 +:+ String "_" p2 → k1 = k2 ∧ p1 = p2.
Proof.
  induction k1 as [|c k1 IH]; intros [|c' k2] p1 p2 H1 H2; simpl.
  - by intros [= ->].
  - intros [= _ Hp]. by destruct (H1 k2 p2).
  - intros [= _ Hp]. by destruct (H2 k1 p1).
  - intros [= -> Hs]. apply IH in Hs as [-> ->]; done.
Qed.

Lemma metric_name_inj k1 i1 k2 i2 :
  metric_name k1 i1 = metric_name k2 i2 → k1 = k2 ∧ i1 = i2.
Proof.
  unfold metric_name. intros H. apply (inj (String.app "cv_")) in H.
  apply sep_inj in H as [-> Hi]; try apply pretty_nat_no_sep.
  split; [done|]. by apply (inj pretty).
Qed.

Lemma cv_metrics_round {V} k (vals : list V) (m : gmap string V) name v :
  foldl (λ m iv, <[metric_name k iv.1 := iv.2]> m) m (imap pair vals) !! name
  = Some v
  ↔ (∃ idx, vals !! idx = Some v ∧ name = metric_name k idx)
    ∨ ((∀ idx, idx < length vals → name ≠ metric_name k idx)
       ∧ m !! name = Some v).
Proof.
  revert name v. induction vals as [|x vals IH] using rev_ind; intros name v.
  - simpl. split.
    + intros Hm. right. split; [|done]. intros idx Hidx. lia.
    + intros [(idx & Hidx & _)|[_ Hm]]; [|done].
      by rewrite lookup_nil in Hidx.
  - rewrite imap_app, foldl_app. simpl. rewrite Nat.add_0_r.
    destruct (decide (name = metric_name k (length vals))) as [->|Hne].
    + rewrite lookup_insert_eq. split.
      * intros [= ->]. left. exists (length vals).
        split; [|done]. by rewrite lookup_app_r, Nat.sub_diag by lia.
      * intros [(idx & Hidx & [_ <-]%metric_name_inj)|[Hfresh _]].
        -- rewrite lookup_app_r, Nat.sub_diag in Hidx by lia.
           by injection Hidx as ->.
        -- exfalso. apply (Hfresh (length vals)); [|done].
           rewrite length_app. simpl. lia.
    + rewrite lookup_insert_ne by done. rewrite IH. split.
      * intros [(idx & Hidx & ->)|[Hfresh Hm]].
        -- left. exists idx. split; [|done].
           apply lookup_app_l_Some. done.
        -- right. split; [|done]. intros idx Hidx.
           rewrite length_app in Hidx. simpl in Hidx.
           destruct (decide (idx = length vals)) as [->|]; [done|].
           apply Hfresh. lia.
      * intros [(idx & Hidx & ->)|[Hfresh Hm]].
        -- left. exists idx. split; [|done].
           apply lookup_app_Some in Hidx as [?|[Hle Hidx]]; [done|].
           apply list_lookup_singleton_Some in Hidx as [Hi _].
           exfalso. apply Hne. f_equal. lia.
        -- right. split; [|done]. intros idx Hidx. apply Hfresh.
           rewrite length_app. simpl. lia.
Qed.

Lemma cv_metrics_keys {V} (lgb_cv : list (string * list V)) ks name v :
  foldl (λ m k,
           foldl (λ m iv, <[metric_name k iv.1 := iv.2]> m) m
                 (imap pair (default [] (assoc k lgb_cv))))
        (∅ : gmap string V) ks !! name = Some v
  ↔ ∃ k idx, k ∈ ks ∧ default [] (assoc k lgb_cv) !! idx = Some v
             ∧ name = metric_name k idx.
Proof.
  revert name v. induction ks as [|k' ks IH] using rev_ind; intros name v.
  - simpl. rewrite lookup_empty. split; [done|].
    intros (k & idx & Hk & _). by apply elem_of_nil in Hk.
  - rewrite foldl_app. simpl. rewrite cv_metrics_round, IH. split.
    + intros [(idx & Hidx & ->)|[_ (k & idx & Hk & Hidx & ->)]].
      * exists k', idx. split; [|done]. apply elem_of_app. right. left.
      * exists k, idx. split; [|done]. apply elem_of_app. by left.
    + intros (k & idx & Hk & Hidx & ->).
      destruct (decide (k = k')) as [->|Hne]; [left; eauto|].
      right. split.
      * intros idx' _ [? _]%metric_name_inj. done.
      * exists k, idx. split; [|done].
        apply elem_of_app in Hk as [?|Hk]; [done|].
        by apply list_elem_of_singleton in Hk.
Qed.

(** X13: the dict of the cross-validation metrics.  Under the name
    [cv_<k>_<idx>] it has the value of metric [k] at round [idx], for every
    metric and every round of [lgb_cv], and it has nothing else.  No entry
    is overwritten by another: the names of two entries differ, whatever
    underscores the names of the metrics hold, a round number having
    none. *)
Theorem cv_metrics_lookup {V} (lgb_cv : list (string * list V)) name v :
  cv_metrics lgb_cv !! name = Some v
  ↔ ∃ k vals idx, assoc k lgb_cv = Some vals ∧ vals !! idx = Some v
                  ∧ name = metric_name k idx.
Proof.
  unfold cv_metrics. rewrite cv_metrics_keys. split.
  - intros (k & idx & Hk & Hidx & ->).
    apply assoc_is_Some in Hk as [vals Hvals]. rewrite Hvals in Hidx.
    by exists k, vals, idx.
  - intros (k & vals & idx & Hvals & Hidx & ->). exists k, idx.
    split; [by apply assoc_Some_names in Hvals|]. by rewrite Hvals.
Qed.

(** Two metrics of [lgb.cv] whose names differ in an underscore only. *)
Example cv_metrics_of_two :
  cv_metrics [("auc-mean", [7; 8]); ("auc-mean_1", [9])]
  = {[ "cv_auc-mean_0" := 7; "cv_auc-mean_1" := 8; "cv_auc-mean_1_0" := 9 ]}.
Proof. by vm_compute. Qed.

(** ** The counts of the confusion matrix *)

Lemma y_pred_class_bits y_pred :
  Forall (λ y, y = 0 ∨ y = 1)%Z (y_pred_class y_pred).
Proof.
  unfold y_pred_class, np_where. rewrite <- list_fmap_compose.
  apply Forall_fmap, Forall_forall. intros p _. simpl.
  destruct (greater p 0.5); auto.
Qed.

Lemma y_pred_class_length y_pred :
  length (y_pred_class y_pred) = length y_pred.
Proof. unfold y_pred_class, np_where. by rewrite !length_fmap. Qed.

Lemma unique_labels_elem y_true y_pred x :
  x ∈ unique_labels y_true y_pred ↔ x ∈ y_true ++ y_pred.
Proof.
  unfold unique_labels. by rewrite merge_sort_Permutation, elem_of_remove_dups.
Qed.

(** The labels of arrays of zeros and ones. *)
Lemma unique_labels_bits y_true y_pred :
  Forall (λ y, y = 0 ∨ y = 1)%Z (y_true ++ y_pred) →
  unique_labels y_true y_pred
  = (if decide (0%Z ∈ y_true ++ y_pred) then [0%Z] else [])
    ++ (if decide (1%Z ∈ y_true ++ y_pred) then [1%Z] else []).
Proof.
  intros Hbits.
  assert (NoDup (unique_labels y_true y_pred)) as Hnd.
  { unfold unique_labels. rewrite merge_sort_Permutation.
    apply NoDup_remove_dups. }
  assert (Sorted Z.le (unique_labels y_true y_pred)) as Hsorted
    by apply (Sorted_merge_sort Z.le).
  assert (∀ x, x ∈ unique_labels y_true y_pred → x = 0 ∨ x = 1)%Z as Hl.
  { intros x Hx%unique_labels_elem. rewrite Forall_forall in Hbits. auto. }
  pose proof (unique_labels_elem y_true y_pred 0%Z) as H0.
  pose proof (unique_labels_elem y_true y_pred 1%Z) as H1.
  destruct (unique_labels y_true y_pred) as [|a [|b [|c l]]].
  - rewrite !decide_False; [done|..]; rewrite <- ?H1, <- ?H0;
      apply not_elem_of_nil.
  - destruct (Hl a) as [->| ->]; [left|..].
    + rewrite decide_True by (apply H0; left).
      rewrite decide_False; [done|]. rewrite <- H1.
      by intros [=]%list_elem_of_singleton.
    + rewrite decide_False.
      * rewrite decide_True by (apply H1; left). done.
      * rewrite <- H0. by intros [=]%list_elem_of_singleton.
  - apply NoDup_cons in Hnd as [Hab _].
    apply Sorted_inv in Hsorted as [_ Hle]. apply HdRel_inv in Hle.
    assert (a = 0 ∧ b = 1)%Z as [-> ->].
    { destruct (Hl a) as [->| ->]; [left|..];
        (destruct (Hl b) as [->| ->]; [right; left|..]); try lia;
        exfalso; apply Hab; left. }
    rewrite decide_True by (apply H0; left).
    rewrite decide_True by (apply H1; right; left). done.
  - exfalso. apply NoDup_cons in Hnd as [Hab Hnd].
    apply NoDup_cons in Hnd as [Hbc _].
    apply not_elem_of_cons in Hab as [Hab Hac].
    apply not_elem_of_cons in Hac as [Hac _].
    apply not_elem_of_cons in Hbc as [Hbc _].
    destruct (Hl a) as [->| ->]; [left|..];
      (destruct (Hl b) as [->| ->]; [right; left|..]);
      (destruct (Hl c) as [->| ->]; [right; right; left|..]); congruence.
Qed.

(** Every sample is in one of the four cells. *)
Lemma samples_total (l : list (Z * Z)) :
  Forall (λ tp, (tp.1 = 0 ∨ tp.1 = 1) ∧ (tp.2 = 0 ∨ tp.2 = 1))%Z l →
  length (filter (λ tp, tp = (0, 0)%Z) l)
  + length (filter (λ tp, tp = (0, 1)%Z) l)
  + length (filter (λ tp, tp = (1, 0)%Z) l)
  + length (filter (λ tp, tp = (1, 1)%Z) l)
  = length l.
Proof.
  induction 1 as [|[t p] l [Ht Hp] _ IH]; [done|].
  rewrite !filter_cons. simpl in Ht, Hp.
  destruct Ht as [-> | ->], Hp as [-> | ->];
    repeat case_decide; try discriminate; try congruence; simpl; lia.
Qed.

Lemma zip_bits (y_true y_pred : list Z) :
  Forall (λ y, y = 0 ∨ y = 1)%Z y_true → Forall (λ y, y = 0 ∨ y = 1)%Z y_pred →
  Forall (λ tp, (tp.1 = 0 ∨ tp.1 = 1) ∧ (tp.2 = 0 ∨ tp.2 = 1))%Z
    (zip y_true y_pred).
Proof.
  intros Ht. revert y_pred.
  induction Ht as [|t y_true Ht _ IH]; intros [|p y_pred] Hp; simpl;
    try constructor.
  - apply Forall_cons in Hp as [? _]. done.
  - apply Forall_cons in Hp as [_ ?]. by apply IH.
Qed.

(** X14: the four counts of the confusion matrix.  The validation labels
    being zeros and ones, one for each prediction, the unpacking of line 183
    gets its four values only when both classes occur among the labels and
    the class predictions: then the counts are those of the true negatives,
    false positives, false negatives and true positives, in this order, and
    they add up to the number of validation rows.  When the labels and the
    predictions are all of one class the matrix has one cell and the
    unpacking raises. *)
Theorem confusion_counts_classes (y_val : list Z) (y_pred : list float) :
  let y_hat := y_pred_class y_pred in
  y_val ≠ [] → length y_val = length y_pred →
  Forall (λ y, y = 0 ∨ y = 1)%Z y_val →
  if decide (0%Z ∈ y_val ++ y_hat ∧ 1%Z ∈ y_val ++ y_hat)
  then
    confusion_counts y_val y_hat
    = Ok (samples y_val y_hat 0 0, samples y_val y_hat 0 1,
          samples y_val y_hat 1 0, samples y_val y_hat 1 1)
    ∧ samples y_val y_hat 0 0 + samples y_val y_hat 0 1
      + samples y_val y_hat 1 0 + samples y_val y_hat 1 1
      = length y_val
  else ∃ e, confusion_counts y_val y_hat = Raise e.
Proof.
  intros y_hat Hne Hlen Hval.
  pose proof (y_pred_class_bits y_pred) as Hhat. fold y_hat in Hhat.
  assert (length y_val = length y_hat) as Hlen'
    by (unfold y_hat; by rewrite y_pred_class_length).
  assert (Forall (λ y, y = 0 ∨ y = 1)%Z (y_val ++ y_hat)) as Hbits
    by (by apply Forall_app).
  unfold confusion_counts, confusion_matrix.
  rewrite (decide_True (P := length y_val = length y_hat)) by done.
  rewrite (unique_labels_bits y_val y_hat Hbits).
  destruct (decide (0%Z ∈ y_val ++ y_hat)) as [H0|H0],
           (decide (1%Z ∈ y_val ++ y_hat)) as [H1|H1].
  - rewrite decide_True by done. split; [done|].
    unfold samples. rewrite samples_total by (by apply zip_bits).
    rewrite length_zip. lia.
  - rewrite decide_False by tauto. by eexists.
  - rewrite decide_False by tauto. by eexists.
  - exfalso. destruct y_val as [|y y_val]; [done|].
    apply Forall_cons in Hval as [[-> | ->] _]; [apply H0|apply H1]; left.
Qed.

Lemma confusion_counts_classes_witness :
  confusion_counts [0; 1; 1; 0]%Z
    (y_pred_class [0.25; 0.875; 0.5; 0.75]%float)
  = Ok (1, 1, 1, 1)
  ∧ ∃ e, confusion_counts [0; 0]%Z (y_pred_class [0.25; 0.125]%float)
         = Raise e.
Proof.
  assert (Forall (λ y, y = 0 ∨ y = 1)%Z [0; 1; 1; 0]%Z) as B1
    by (apply (bool_decide_unpack _); by vm_compute).
  assert (Forall (λ y, y = 0 ∨ y = 1)%Z [0; 0]%Z) as B2
    by (apply (bool_decide_unpack _); by vm_compute).
  split.
  - pose proof (confusion_counts_classes [0; 1; 1; 0]%Z
                  [0.25; 0.875; 0.5; 0.75]%float
                  ltac:(discriminate) eq_refl B1) as H.
    match type of H with
    | if ?d then _ else _ => destruct d as [_|Hboth]
    end.
    + destruct H as [-> _]. vm_compute. reflexivity.
    + exfalso. apply Hboth.
      split; apply (bool_decide_unpack _); by vm_compute.
  - pose proof (confusion_counts_classes [0; 0]%Z [0.25; 0.125]%float
                  ltac:(discriminate) eq_refl B2) as H.
    match type of H with
    | if ?d then _ else _ => destruct d as [Hboth|_]
    end.
    + exfalso. destruct Hboth as [_ H1]. revert H1.
      apply (bool_decide_unpack _). by vm_compute.
    + exact H.
Defined.
